(** * oidc-platform: theme service and user controller

    A shallow embedding of
    - [api/src/application/theme/theme-service.js] (fetchTemplate,
      getThemedTemplate, renderThemedTemplate), and
    - [api/src/application/user/user-controller.js] (expandDotPaths and
      the handlers),
    followed by the properties of the specification that concern them.

    JavaScript values are a small inductive type, objects are property
    lists kept in enumeration order, and asynchronous code that can throw
    is written in a state-and-error monad whose state holds what the code
    reads (database tables, files) and a log of the calls it makes to its
    collaborators. *)

From Stdlib Require Import ZArith String List Ascii Bool.
From stdpp Require Import gmap strings list.

Local Open Scope string_scope.
Set Warnings "-register-all".

(* ===================================================================== *)
(** * JavaScript values *)
(* ===================================================================== *)

Module JS.

(** Primitive values.  Numbers are the integers (no claim needs a
    fraction) and [PNaN]. *)
Inductive prim : Type :=
| PUndefined
| PNull
| PBool (b : bool)
| PNum (n : Z)
| PNaN
| PStr (s : string).

#[global] Instance prim_eq_dec : EqDecision prim.
Proof. solve_decision. Defined.

(** A value is a primitive or an object.  An object is its list of own
    enumerable properties in enumeration order; [arr] tells an array
    from a plain object. *)
Inductive value : Type :=
| VPrim (p : prim)
| VObj (arr : bool) (props : list (string * value)).

Definition object : Type := list (string * value).

Definition VStr (s : string) : value := VPrim (PStr s).
Definition undefined : value := VPrim PUndefined.

(** ToBoolean. *)
Definition truthy_prim (p : prim) : bool :=
  match p with
  | PUndefined | PNull | PNaN => false
  | PBool b => b
  | PNum n => negb (n =? 0)%Z
  | PStr s => negb (String.eqb s "")
  end.

Definition truthy (v : value) : bool :=
  match v with
  | VPrim p => truthy_prim p
  | VObj _ _ => true
  end.

(** lodash's [isObject]. *)
Definition isObject (v : value) : bool :=
  match v with
  | VObj _ _ => true
  | VPrim _ => false
  end.

(** [o[k]] as an option: [None] when [k] is not an own property. *)
Fixpoint lookup (k : string) (o : object) : option value :=
  match o with
  | [] => None
  | (k', v) :: o' => if String.eqb k k' then Some v else lookup k o'
  end.

(** [o[k]]. *)
Definition get (k : string) (o : object) : value :=
  match lookup k o with
  | Some v => v
  | None => undefined
  end.

(** [o[k] = v]: an existing property keeps its place, a new one goes
    last. *)
Fixpoint assign (k : string) (v : value) (o : object) : object :=
  match o with
  | [] => [(k, v)]
  | (k', v') :: o' =>
      if String.eqb k k' then (k, v) :: o' else (k', v') :: assign k v o'
  end.

(** [delete o[k]]: no entry under [k] is left. *)
Fixpoint delete (k : string) (o : object) : object :=
  match o with
  | [] => []
  | (k', v') :: o' =>
      if String.eqb k k' then delete k o' else (k', v') :: delete k o'
  end.

(** [Object.keys(o)]. *)
Definition keys (o : object) : list string := map fst o.

(** [Object.assign(target, source)]: every own property of [source], in
    order, is assigned to [target]. *)
Definition Object_assign (target source : object) : object :=
  fold_left (fun t kv => assign (fst kv) (snd kv) t) source target.

(** [s.indexOf(c)] for a one-character [c]; -1 when absent. *)
Fixpoint indexOf (c : ascii) (s : string) : Z :=
  match s with
  | EmptyString => (-1)%Z
  | String a s' =>
      if Ascii.eqb a c then 0%Z
      else let i := indexOf c s' in
           if (i <? 0)%Z then (-1)%Z else (i + 1)%Z
  end.

(** The functions that every object inherits from [Object.prototype],
    [constructor] apart. *)
Definition Object_prototype_functions : list string :=
  [ "hasOwnProperty"; "isPrototypeOf"; "propertyIsEnumerable";
    "toLocaleString"; "toString"; "valueOf"; "__defineGetter__";
    "__defineSetter__"; "__lookupGetter__"; "__lookupSetter__" ].

(** [`${o[name]}`] for a plain object [o] that has no own property
    [name] but inherits one; [None] when it inherits none either. *)
Definition inherited_text (name : string) : option string :=
  if String.eqb name "__proto__" then Some "[object Object]"
  else if String.eqb name "constructor"
  then Some "function Object() { [native code] }"
  else if bool_decide (name ∈ Object_prototype_functions)
  then Some ("function " ++ name ++ "() { [native code] }")
  else None.

(** Strings are sequences of bytes, a character outside ASCII being its
    UTF-8 bytes.  [line_break_at s]: [s] starts with a line terminator,
    which the [.] of a regular expression does not match: LF, CR, U+2028
    or U+2029. *)
Definition line_break_at (s : string) : bool :=
  match s with
  | String c1 s1 =>
      Ascii.eqb c1 "010" || Ascii.eqb c1 "013"
      || (Ascii.eqb c1 "226"
          && match s1 with
             | String c2 (String c3 _) =>
                 Ascii.eqb c2 "128"
                 && (Ascii.eqb c3 "168" || Ascii.eqb c3 "169")
             | _ => false
             end)
  | EmptyString => false
  end.

End JS.

(* ===================================================================== *)
(** * Thrown errors and the monad of asynchronous code *)
(* ===================================================================== *)

Module Async.

(** What a call can throw (or reject with). *)
Inductive error : Type :=
| AssertionError (msg : string)  (* the [Error] handed to [Hoek.assert] *)
| TypeError (msg : string)
| ENOENT (path : string)         (* [fs.readFile] on a missing file *)
| RenderError (msg : string)     (* thrown by a compiled template *)
| ServiceError (msg : string).   (* thrown by a collaborator *)

Inductive result (A : Type) : Type :=
| Ok (a : A)
| Err (e : error).
Arguments Ok {A} a.
Arguments Err {A} e.

Definition result_map {A B} (f : A -> B) (r : result A) : result B :=
  match r with
  | Ok a => Ok (f a)
  | Err e => Err e
  end.

Definition is_ok {A} (r : result A) : bool :=
  match r with Ok _ => true | Err _ => false end.

(** A computation over a state [S]: it returns or throws, and leaves a
    state behind in both cases. *)
Definition M (S A : Type) : Type := S -> result A * S.

Definition ret {S A} (a : A) : M S A := fun s => (Ok a, s).

Definition throw {S A} (e : error) : M S A := fun s => (Err e, s).

(** [await m] followed by [k]; a throw in [m] skips [k]. *)
Definition bind {S A B} (m : M S A) (k : A -> M S B) : M S B :=
  fun s =>
    match m s with
    | (Ok a, s') => k a s'
    | (Err e, s') => (Err e, s')
    end.

(** A pure step that may throw. *)
Definition lift {S A} (r : result A) : M S A := fun s => (r, s).

End Async.

Export Async.

Declare Scope async_scope.
Delimit Scope async_scope with async.
Notation "'let*' x ':=' m 'in' k" :=
  (bind m (fun x => k))
    (at level 10, x name, m at level 100, k at level 200) : async_scope.
Notation "m ';;' k" :=
  (bind m (fun _ => k))
    (at level 100, k at level 200, right associativity) : async_scope.

(* ===================================================================== *)
(** * theme-service.js *)
(* ===================================================================== *)

Module ThemeService.
Import JS.
Local Open Scope async_scope.

(** ** Persisted data *)

(** Modelled from the spec: the bookshelf models [client], [template]
    and [layout] (registered in [lib/bookshelf], which is not among the
    sources).  A Client has an identifier and a nullable theme
    identifier; a Template belongs to a theme, has a [name] (the page
    key) and an associated Layout. *)
Record client_row : Type := {
  client_id : string;
  theme_id : prim;            (* [PNull] or the key of a theme *)
}.

Record layout_row : Type := {
  layout_key : prim;
  layout_code : string;
}.

Record template_row : Type := {
  template_theme_id : prim;
  template_name : string;
  template_code : string;
  template_layout_id : prim;
}.

(** What [fetch({withRelated: ['layout']})] resolves to: the row and
    its loaded [layout] relation. *)
Record Template : Type := {
  attributes : template_row;
  layout : option layout_row;
}.

(** Everything the service reads: the three tables and the files under
    [./templates]. *)
Record World : Type := {
  clients : list client_row;
  templates : list template_row;
  layouts : list layout_row;
  files : gmap string string;
}.

(** The calls that leave the process. *)
Inductive io_event : Type :=
| QueryClient (clientId : value)
| QueryTemplate (theme : prim) (page : string)
| ReadFile (path : string)
| CallTemplateRender (t : Template) (page : string).

Record State : Type := {
  world : World;
  io : list io_event;         (* oldest first *)
}.

Definition log (e : io_event) : M State unit :=
  fun s => (Ok tt, {| world := world s; io := io s ++ [e] |}).

Definition read {A} (f : World -> A) : M State A :=
  fun s => (Ok (f (world s)), s).

(** ** Collaborators that are not part of the sources *)

Class Deps : Type := {
  (** [require('./defaultLayouts')]: page name to layout file name. *)
  defaultLayouts : gmap string string;
  (** [handlebars.compile(code)]: compilation is lazy, so it does not
      throw on a string; the compiled template may. *)
  handlebars_compile : string -> object -> result string;
  (** [template.render(page, context)] of the template model. *)
  template_render : Template -> string -> object -> result string;
}.

Section Service.
Context `{Deps}.

(** [Hoek.assert(condition, error)]. *)
Definition Hoek_assert (condition : value) (msg : string) : M State unit :=
  if truthy condition then ret tt else throw (AssertionError msg).

(** The [where] clause [client_id = ?]: the column is a string. *)
Definition client_matches (clientId : value) (c : client_row) : bool :=
  match clientId with
  | VPrim (PStr s) => String.eqb s (client_id c)
  | _ => false
  end.

(** [bookshelf.model('client').where({client_id}).fetch()]: the first
    matching row, or null. *)
Definition fetch_client (clientId : value) : M State (option client_row) :=
  log (QueryClient clientId) ;;
  read (fun w => List.find (client_matches clientId) (clients w)).

Definition template_matches (theme : prim) (page : string)
    (t : template_row) : bool :=
  bool_decide (template_theme_id t = theme) && String.eqb (template_name t) page.

Definition related_layout (w : World) (t : template_row) : option layout_row :=
  List.find (fun l => bool_decide (layout_key l = template_layout_id t))
            (layouts w).

(** [bookshelf.model('template').where({theme_id, name})
      .fetch({withRelated: ['layout']})]. *)
Definition fetch_template (theme : prim) (page : string)
    : M State (option Template) :=
  log (QueryTemplate theme page) ;;
  read (fun w =>
          match List.find (template_matches theme page) (templates w) with
          | Some t => Some {| attributes := t; layout := related_layout w t |}
          | None => None
          end).

(** [promisify(fs.readFile)(path)] followed by [toString()]. *)
Definition readFileAsync (path : string) : M State string :=
  log (ReadFile path) ;;
  let* content := read (fun w => files w !! path) in
  match content with
  | Some code => ret code
  | None => throw (ENOENT path)
  end.

(** ** What [bookshelf] and [fs] offer besides

    The service requires both modules whole: a fetched model can be
    saved, a file written.  None of the three operations below calls
    these; they are what an operation that did mutate persisted data
    would call. *)

(** [client.save({theme_id: theme})] on the rows of a client. *)
Definition save_theme_id (id : string) (theme : prim) : M State unit :=
  fun s =>
    let w := world s in
    (Ok tt,
     {| world :=
          {| clients :=
               map (fun c => if String.eqb (client_id c) id
                             then {| client_id := id; theme_id := theme |}
                             else c)
                   (clients w);
             templates := templates w;
             layouts := layouts w;
             files := files w |};
        io := io s |}).

(** [promisify(fs.writeFile)(path, content)]. *)
Definition writeFileAsync (path : string) (content : string) : M State unit :=
  fun s =>
    let w := world s in
    (Ok tt,
     {| world :=
          {| clients := clients w;
             templates := templates w;
             layouts := layouts w;
             files := <[path := content]> (files w) |};
        io := io s |}).

(** [fetchTemplate(clientId, page)]; [None] is [false]. *)
Definition fetchTemplate (clientId : value) (page : string)
    : M State (option Template) :=
  Hoek_assert clientId "clientId is required in ThemeService::fetchTemplate" ;;
  let* client := fetch_client clientId in
  match client with
  | None => throw (TypeError "Cannot read property 'get' of null")
  | Some client =>
      (* scenario 1, client has null theme *)
      if negb (truthy_prim (theme_id client)) then ret None
      else
        (* scenario 2, client has theme but null template *)
        let* template := fetch_template (theme_id client) page in
        ret template
  end.

(** [`${defaultLayouts[page]}`]: the table is a plain object, so a page
    it does not list can still name something it inherits. *)
Definition default_layout_name (page : string) : string :=
  match defaultLayouts !! page with
  | Some name => name
  | None =>
      match inherited_text page with
      | Some text => text
      | None => "undefined"
      end
  end.

Definition default_layout_path (page : string) : string :=
  "./templates/layout/" ++ default_layout_name page.

Definition default_page_path (page : string) : string :=
  "./templates/" ++ page ++ ".hbs".

Record themed : Type := {
  template : option Template;
  renderedTemplate : string;
}.

(** The branch [if (!template)]. *)
Definition render_default (page : string) (context : object) : M State string :=
  let* layoutCode := readFileAsync (default_layout_path page) in
  let layoutTemplate := handlebars_compile layoutCode in
  let* templateCode := readFileAsync (default_page_path page) in
  let pageTemplate := handlebars_compile templateCode in
  let* content := lift (pageTemplate context) in
  let layoutContext :=
    Object_assign (Object_assign [] context) [("content", VStr content)] in
  lift (layoutTemplate layoutContext).

(** The branch [else]. *)
Definition render_custom (t : Template) (page : string) (context : object)
    : M State string :=
  log (CallTemplateRender t page) ;;
  lift (template_render t page context).

(** [getThemedTemplate(clientId, page, context)]. *)
Definition getThemedTemplate (clientId : value) (page : string)
    (context : object) : M State themed :=
  Hoek_assert clientId "clientId is required in ThemeService::getThemedTemplate" ;;
  let* template := fetchTemplate clientId page in
  let* renderedTemplate :=
    match template with
    | None => render_default page context
    | Some t => render_custom t page context
    end in
  ret {| template := template; renderedTemplate := renderedTemplate |}.

(** [renderThemedTemplate(clientId, page, context)]. *)
Definition renderThemedTemplate (clientId : value) (page : string)
    (context : object) : M State string :=
  let* r := getThemedTemplate clientId page context in
  ret (renderedTemplate r).

(** ** The default rendering as the specification words it

    Compile the default page file [./templates/<page>.hbs], render it
    with the context, place the result into the context under the key
    [content], and render the page's mapped default layout with that
    merged context. *)
Definition spec_default_html (fs : gmap string string) (page : string)
    (context : object) : option string :=
  match fs !! ("./templates/" ++ page ++ ".hbs") with
  | None => None
  | Some pageCode =>
      match handlebars_compile pageCode context with
      | Err _ => None
      | Ok content =>
          let merged := assign "content" (VStr content) context in
          match defaultLayouts !! page with
          | None => None
          | Some name =>
              match fs !! ("./templates/layout/" ++ name) with
              | None => None
              | Some layoutCode =>
                  match handlebars_compile layoutCode merged with
                  | Ok html => Some html
                  | Err _ => None
                  end
              end
          end
      end
  end.

(** ** Vocabulary of the properties *)

(** [x] is the first element of [l] of which [P] holds: the row that a
    query for [P] fetches. *)
Definition first_such {A} (P : A -> Prop) (l : list A) (x : A) : Prop :=
  exists before after,
    l = (before ++ x :: after)%list /\ P x /\ forall y, y ∈ before -> ~ P y.

(** The row is the Client record with this identifier. *)
Definition is_client (clientId : value) (c : client_row) : Prop :=
  clientId = VStr (client_id c).

(** The row is a Template of this theme for this page. *)
Definition is_template_for (theme : prim) (page : string) (t : template_row)
    : Prop :=
  template_theme_id t = theme /\ template_name t = page.

(** [l] is the Layout relation of the template row [t]: the layout row
    that [t] refers to, or nothing when no row has that key. *)
Definition layout_relation (w : World) (t : template_row)
    (l : option layout_row) : Prop :=
  match l with
  | Some row =>
      first_such (fun r => layout_key r = template_layout_id t) (layouts w) row
  | None => forall r, r ∈ layouts w -> layout_key r <> template_layout_id t
  end.

(** The client row that [clientId] designates. *)
Definition client_of (w : World) (clientId : value) : option client_row :=
  List.find (client_matches clientId) (clients w).

(** The first template row of theme [theme] named [page]. *)
Definition template_of (w : World) (theme : prim) (page : string)
    : option template_row :=
  List.find (template_matches theme page) (templates w).

(** The client refers to a theme: its [theme_id] holds a key.  Null
    holds none, and neither do the other falsy values, which no key
    takes. *)
Definition has_theme (c : client_row) : bool := truthy_prim (theme_id c).

(** The client has no theme, or its theme has no template for [page]. *)
Definition no_custom_template (w : World) (c : client_row) (page : string)
    : Prop :=
  has_theme c = false \/ template_of w (theme_id c) page = None.

(** A call is stateless when it leaves the persisted data as it found
    them and its outcome depends on nothing but them. *)
Definition stateless {A} (m : M State A) : Prop :=
  (forall s, world (snd (m s)) = world s) /\
  (forall s1 s2, world s1 = world s2 -> fst (m s1) = fst (m s2)).

(** The state after the calls [evs] have been made. *)
Definition logged (s : State) (evs : list io_event) : State :=
  {| world := world s; io := io s ++ evs |}.

(** The start of a request: nothing has been logged yet. *)
Definition initial (w : World) : State := {| world := w; io := [] |}.

(** Falling back without a hard failure, for a given page and context:
    the call returns the default rendering. *)
Definition falls_back_without_failure (w : World) (clientId : value)
    (page : string) (context : object) : Prop :=
  forall c,
    client_of w clientId = Some c ->
    no_custom_template w c page ->
    exists html s',
      getThemedTemplate clientId page context (initial w)
      = (Ok {| template := None; renderedTemplate := html |}, s').

End Service.

End ThemeService.

(* ===================================================================== *)
(** * user-controller.js *)
(* ===================================================================== *)

Module UserController.
Import JS.
Local Open Scope async_scope.

(** ** lodash's [set] *)

Definition is_digit (c : ascii) : bool :=
  let n := nat_of_ascii c in (48 <=? n)%nat && (n <=? 57)%nat.

Fixpoint all_digits (s : string) : bool :=
  match s with
  | EmptyString => true
  | String c s' => is_digit c && all_digits s'
  end.

Fixpoint decimal (acc : Z) (s : string) : Z :=
  match s with
  | EmptyString => acc
  | String c s' => decimal (10 * acc + (Z.of_nat (nat_of_ascii c) - 48)) s'
  end.

(** The regular expression [reIsUint]: [0], or a digit other than 0
    followed by digits. *)
Definition reIsUint (s : string) : bool :=
  match s with
  | EmptyString => false
  | String c s' =>
      all_digits s && (String.eqb s "0" || negb (Ascii.eqb c "0"))
  end.

Definition MAX_SAFE_INTEGER : Z := 9007199254740991.

(** [isIndex(value)] on a string. *)
Definition isIndex (s : string) : bool :=
  reIsUint s && (decimal 0 s <? MAX_SAFE_INTEGER)%Z.

(** *** [stringToPath]

    The string is scanned with the regular expression [rePropName],
    whose alternatives are, in this order: a run of characters other
    than [.], [[] and []]; a bracket that holds a number or a quoted
    string; the empty string before a [.] or a [[]] that is itself
    followed by a [.], a [[]] or the end.  Each match gives a segment; a
    character at which nothing matches is passed over. *)

Definition is_plain (c : ascii) : bool :=
  negb (Ascii.eqb c "." || Ascii.eqb c "[" || Ascii.eqb c "]").

(** At a [.], a [[]] or the end. *)
Definition before_separator (s : string) : bool :=
  match s with
  | EmptyString => true
  | String c s' =>
      Ascii.eqb c "."
      || (Ascii.eqb c "["
          && match s' with
             | String c' _ => Ascii.eqb c' "]"
             | EmptyString => false
             end)
  end.

(** The third alternative, at the start of [s]. *)
Definition empty_match (s : string) : bool :=
  match s with
  | String c s' =>
      if Ascii.eqb c "." then before_separator s'
      else if Ascii.eqb c "[" then
        match s' with
        | String c' s'' => Ascii.eqb c' "]" && before_separator s''
        | EmptyString => false
        end
      else false
  | EmptyString => false
  end.

(** The digits at the start of a string, and what follows them. *)
Fixpoint span_digits (s : string) : string * string :=
  match s with
  | String c s' =>
      if is_digit c
      then let (digits, rest) := span_digits s' in (String c digits, rest)
      else (EmptyString, s)
  | EmptyString => (EmptyString, EmptyString)
  end.

Definition closes (s : string) : bool :=
  match s with
  | String c _ => Ascii.eqb c "]"
  | EmptyString => false
  end.

(** After [[]: a number, [-?\d+(?:\.\d+)?], and the closing bracket. *)
Definition bracket_number (s : string) : option string :=
  let (sign, s1) :=
    match s with
    | String c s' => if Ascii.eqb c "-" then ("-", s') else (EmptyString, s)
    | EmptyString => (EmptyString, s)
    end in
  let (whole, s2) := span_digits s1 in
  if String.eqb whole "" then None
  else if closes s2 then Some (sign ++ whole)
  else
    match s2 with
    | String c s3 =>
        if Ascii.eqb c "." then
          let (fraction, s4) := span_digits s3 in
          if String.eqb fraction "" then None
          else if closes s4 then Some (sign ++ whole ++ "." ++ fraction)
          else None
        else None
    | EmptyString => None
    end.

(** After the opening quote [q]: characters other than [q] and the
    backslash, or a backslash and the character after it (no line
    terminator), up to a [q] that the closing bracket follows.
    [escaped] tells that the backslash has just been read. *)
Fixpoint quoted_body (q : ascii) (escaped : bool) (s : string) : option string :=
  match s with
  | EmptyString => None
  | String c s' =>
      if escaped then
        if line_break_at s then None
        else option_map (String c) (quoted_body q false s')
      else if Ascii.eqb c "\" then
        option_map (String c) (quoted_body q true s')
      else if Ascii.eqb c q then
        if closes s' then Some EmptyString else None
      else option_map (String c) (quoted_body q false s')
  end.

(** [subString.replace(reEscapeChar, '$1')]: a backslash goes, unless
    a backslash precedes it. *)
Fixpoint unescape (s : string) : string :=
  match s with
  | EmptyString => EmptyString
  | String c s' =>
      if Ascii.eqb c "\" then
        match s' with
        | String c' s'' =>
            if Ascii.eqb c' "\" then String c' (unescape s'') else unescape s'
        | EmptyString => EmptyString
        end
      else String c (unescape s')
  end.

(** The second alternative, after the [[]: the segment, and how many
    characters it takes, the closing bracket included. *)
Definition bracket (s : string) : option (string * nat) :=
  match bracket_number s with
  | Some number => Some (number, S (String.length number))
  | None =>
      match s with
      | String q s' =>
          if Ascii.eqb q "034" || Ascii.eqb q "'" then
            match quoted_body q false s' with
            | Some raw => Some (unescape raw, 3 + String.length raw)%nat
            | None => None
            end
          else None
      | EmptyString => None
      end
  end.

(** The segment in progress, if any, goes before the others. *)
Definition flush (run : string) (segments : list string) : list string :=
  if String.eqb run "" then segments else run :: segments.

(** The scan: [skip] characters are inside a bracket that has matched,
    [run] is the run of plain characters read so far. *)
Fixpoint scan (skip : nat) (run : string) (s : string) : list string :=
  match s with
  | EmptyString => flush run []
  | String c s' =>
      match skip with
      | S n => scan n EmptyString s'
      | O =>
          if is_plain c then scan 0 (run ++ String c EmptyString) s'
          else
            flush run
              (match (if Ascii.eqb c "[" then bracket s' else None) with
               | Some (segment, n) => segment :: scan n EmptyString s'
               | None =>
                   if empty_match s then EmptyString :: scan 0 EmptyString s'
                   else scan 0 EmptyString s'
               end)
      end
  end.

(** [stringToPath(string)]: a leading dot gives an empty first segment. *)
Definition stringToPath (s : string) : list string :=
  (match s with
   | String c _ => if Ascii.eqb c "." then [EmptyString] else []
   | EmptyString => []
   end) ++ scan 0 EmptyString s.

(** The keys at which [baseSet] stops (lodash 4.17.21; older versions
    walk on into the inherited value). *)
Definition unsafe_key (key : string) : bool :=
  String.eqb key "__proto__" || String.eqb key "constructor"
  || String.eqb key "prototype".

(** [\w]. *)
Definition is_word (c : ascii) : bool :=
  let n := nat_of_ascii c in
  is_digit c || ((65 <=? n)%nat && (n <=? 90)%nat)
  || ((97 <=? n)%nat && (n <=? 122)%nat) || Ascii.eqb c "_".

(** [reIsPlainProp]: word characters only. *)
Fixpoint reIsPlainProp (s : string) : bool :=
  match s with
  | EmptyString => true
  | String c s' => is_word c && reIsPlainProp s'
  end.

(** After a [[]: no bracket before the next []]. *)
Fixpoint closes_plainly (s : string) : bool :=
  match s with
  | EmptyString => false
  | String c s' =>
      if Ascii.eqb c "]" then true
      else if Ascii.eqb c "[" then false
      else closes_plainly s'
  end.

(** [reIsDeepProp]: a dot, or a bracket that holds no bracket or a
    quoted string. *)
Fixpoint reIsDeepProp (s : string) : bool :=
  match s with
  | EmptyString => false
  | String c s' =>
      Ascii.eqb c "."
      || (Ascii.eqb c "["
          && (closes_plainly s'
              || match s' with
                 | String q s'' =>
                     (Ascii.eqb q "034" || Ascii.eqb q "'")
                     && bool_decide (is_Some (quoted_body q false s''))
                 | EmptyString => false
                 end))
      || reIsDeepProp s'
  end.

(** [isKey(path, object)] on a string: a plain name, or a property of
    [object]. *)
Definition isKey (path : string) (o : object) : bool :=
  reIsPlainProp path || negb (reIsDeepProp path)
  || bool_decide (is_Some (lookup path o)).

Definition castPath (path : string) (o : object) : list string :=
  if isKey path o then [path] else stringToPath path.

(** [baseSet]: walk the path, creating an array before an index segment
    and a plain object before any other where there is no object yet,
    and assign the value at the last segment; stop at an unsafe key. *)
Fixpoint baseSet (path : list string) (v : value) (nested : object) : object :=
  match path with
  | [] => nested
  | key :: rest =>
      if unsafe_key key then nested
      else
        match rest with
        | [] => assign key v nested
        | next :: _ =>
            let objValue := get key nested in
            let newValue :=
              match objValue with
              | VObj arr props => (arr, props)
              | VPrim _ => (isIndex next, [])
              end in
            assign key (VObj (fst newValue) (baseSet rest v (snd newValue)))
                   nested
        end
  end.

(** [set(object, path, value)]. *)
Definition set (o : object) (path : string) (v : value) : object :=
  baseSet (castPath path o) v o.

(** ** [expandDotPaths] *)

(** The callback of [forEach]. *)
Definition expand_key (object : object) (key : string) : JS.object :=
  if (indexOf "." key >? -1)%Z then
    let value := get key object in
    let object := delete key object in
    set object key value
  else object.

Definition expandDotPaths (object : object) : JS.object :=
  fold_left expand_key (keys object) object.

(** Reading a nested path, as [get(object, path)] does. *)
Fixpoint get_path (path : list string) (v : value) : option value :=
  match path with
  | [] => Some v
  | k :: rest =>
      match v with
      | VObj _ props =>
          match lookup k props with
          | Some v' => get_path rest v'
          | None => None
          end
      | VPrim _ => None
      end
  end.

Definition has_dot (key : string) : bool := (indexOf "." key >? -1)%Z.

(** Where the value of a key goes: along the path that [set] follows
    for a key with a dot, under the key itself for any other. *)
Definition path_of (key : string) : list string :=
  if has_dot key then stringToPath key else [key].

(** Where the value [v] of the key [key] is to be found in [o] once
    the key has been dealt with: at the nested path, the key itself
    being gone, for a key with a dot; under the key for any other. *)
Definition settled (key : string) (v : value) (o : object) : Prop :=
  if has_dot key
  then lookup key o = None /\
       get_path (stringToPath key) (VObj false o) = Some v
  else lookup key o = Some v.

(** What is said of [expandDotPaths object]: a key with a dot is gone
    and its value sits at the nested path; a key without a dot is as it
    was. *)
Definition expanded (object : object) : Prop :=
  forall key v,
    lookup key object = Some v -> settled key v (expandDotPaths object).

(** *** Where the model of [set] follows lodash

    [baseSet] above reads [nested[key]] among the own properties.  In
    JavaScript the read also finds what the object inherits: under a
    name of [Object.prototype], and inside an array under a name of
    [Array.prototype], a built-in value that all objects share, into
    which lodash then writes; and an array keeps [length] for itself,
    which takes no arbitrary value.  [own_walk] tells that the walk of
    [baseSet] along a path meets none of these, and has somewhere to
    go. *)

Definition object_names : list string :=
  "constructor" :: "__proto__" :: Object_prototype_functions.

Definition array_names : list string :=
  [ "length"; "at"; "concat"; "copyWithin"; "entries"; "every"; "fill";
    "filter"; "find"; "findIndex"; "findLast"; "findLastIndex"; "flat";
    "flatMap"; "forEach"; "includes"; "indexOf"; "join"; "keys";
    "lastIndexOf"; "map"; "pop"; "push"; "reduce"; "reduceRight"; "reverse";
    "shift"; "slice"; "some"; "sort"; "splice"; "toReversed"; "toSorted";
    "toSpliced"; "unshift"; "values"; "with" ].

(** [key in nested] without [nested] having it as an own property. *)
Definition inherits (arr : bool) (key : string) : bool :=
  bool_decide (key ∈ object_names) || (arr && bool_decide (key ∈ array_names)).

Fixpoint own_walk (arr : bool) (nested : object) (path : list string) : bool :=
  match path with
  | [] => false
  | key :: rest =>
      negb (unsafe_key key)
      && match rest with
         | [] => negb (arr && String.eqb key "length")
         | next :: _ =>
             match lookup key nested with
             | Some (VObj arr' props) => own_walk arr' props rest
             | Some (VPrim _) => own_walk (isIndex next) [] rest
             | None => negb (inherits arr key) && own_walk (isIndex next) [] rest
             end
         end
  end.

(** Every key with a dot among [ks] is set by an [own_walk], the keys
    being dealt with in this order from [o] on. *)
Fixpoint own_walks_from (ks : list string) (o : object) : bool :=
  match ks with
  | [] => true
  | key :: ks' =>
      (if has_dot key then own_walk false (delete key o) (path_of key)
       else true)
      && own_walks_from ks' (expand_key o key)
  end.

Definition own_walks (object : object) : bool :=
  own_walks_from (keys object) object.

(** No segment of a path is an array index.  (An object lists such
    properties first, whenever they were created.) *)
Definition no_index (object : object) : bool :=
  forallb (fun key => forallb (fun seg => negb (isIndex seg)) (path_of key))
          (keys object).

(** No key's path runs through another key. *)
Definition paths_independent (object : object) : Prop :=
  forall k1 k2,
    k1 ∈ keys object -> k2 ∈ keys object -> k1 <> k2 ->
    ~ path_of k1 `prefix_of` path_of k2.

(** No path starts at the name of a key with a dot (which a quoted
    segment can be). *)
Definition heads_apart (object : object) : Prop :=
  forall k1 k2,
    k1 ∈ keys object -> k2 ∈ keys object -> has_dot k1 = true ->
    ~ [k1] `prefix_of` path_of k2.

(** ** [changePassword] *)

(** The collaborators of the controller that the handler calls.  [S] is
    whatever they keep: the user table, the mail queue, the response. *)
Class Services (S : Type) : Type := {
  (** [lib/comparePasswords]. *)
  comparePasswords : value -> object -> M S value;
  (** [userService.encryptPassword]. *)
  encryptPassword : value -> M S value;
  (** [userService.update]. *)
  update : value -> object -> M S unit;
  (** [userService.sendPasswordChangeEmail]. *)
  sendPasswordChangeEmail : value -> value -> M S unit;
}.

(** The calls the handler makes, with their arguments. *)
Inductive call : Type :=
| ComparePasswords (current : value) (user : JS.object)
| EncryptPassword (password : value)
| Update (id : value) (patch : JS.object)
| SendPasswordChangeEmail (email : value) (client : value)
| Render (error : value).

Record State (S : Type) : Type := {
  services : S;
  calls : list call;          (* oldest first *)
}.
Arguments services {S} _.
Arguments calls {S} _.

Record Request : Type := {
  payload : object;
  query : object;
}.

Section Handlers.
Context {S : Type} `{Services S}.

(** Calling a collaborator: the call is logged, then it runs on the
    collaborators' state. *)
Definition invoke {A} (c : call) (m : M S A) : M (State S) A :=
  fun s =>
    let (r, sv) := m (services s) in
    (r, {| services := sv; calls := calls s ++ [c] |}).

(** [{ current: ['Password is incorrect'] }]. *)
Definition password_is_incorrect : value :=
  VObj false [("current", VObj true [("0", VStr "Password is incorrect")])].

(** [changePassword(request, reply, user, client, render)]; [user] is
    the user model, read through [user.get]. *)
Definition changePassword (request : Request) (user : object)
    (client : value) (render : value -> M S unit) : M (State S) unit :=
  let current := get "current" (payload request) in
  let password := get "password" (payload request) in
  let* isAuthenticated :=
    invoke (ComparePasswords current user) (comparePasswords current user) in
  let* error :=
    if truthy isAuthenticated then
      let* hashedPassword :=
        invoke (EncryptPassword password) (encryptPassword password) in
      let patch := [("password", hashedPassword)] in
      invoke (Update (get "id" user) patch) (update (get "id" user) patch) ;;
      invoke (SendPasswordChangeEmail (get "email" user) client)
             (sendPasswordChangeEmail (get "email" user) client) ;;
      ret undefined
    else
      ret password_is_incorrect in
  invoke (Render error) (render error).

End Handlers.

End UserController.

(* ===================================================================== *)
(** * Concrete data used by the examples *)
(* ===================================================================== *)

Module Examples.
Import JS ThemeService.

(** A toy template engine: the code, followed by the [content] and
    [title] of the context when they are strings. *)
Definition field (k : string) (context : object) : string :=
  match lookup k context with
  | Some (VPrim (PStr s)) => s
  | _ => ""
  end.

Definition toy_compile (code : string) (context : object) : result string :=
  if String.eqb code "{{#broken" then Err (RenderError "Parse error")
  else Ok (code ++ "[" ++ field "title" context ++ "|" ++ field "content" context ++ "]").

#[export] Instance deps : Deps := {|
  defaultLayouts := {[ "forgot-password" := "default.hbs";
                       "reset-password" := "default.hbs" ]};
  handlebars_compile := toy_compile;
  template_render := fun t page context =>
    match layout t with
    | Some l => toy_compile (layout_code l)
                  (assign "content"
                     (VStr (template_code (attributes t))) context)
    | None => Err (TypeError "layout is not loaded")
    end;
|}.

Definition acme_forgot : template_row := {|
  template_theme_id := PNum 7;
  template_name := "forgot-password";
  template_code := "<p>acme</p>";
  template_layout_id := PNum 3;
|}.

Definition acme_layout : layout_row := {|
  layout_key := PNum 3;
  layout_code := "<html>acme</html>";
|}.

(** Client [c1] has no theme; client [c2] has theme 7, which owns a
    template for [forgot-password] only. *)
Definition w0 : World := {|
  clients := [ {| client_id := "c1"; theme_id := PNull |};
               {| client_id := "c2"; theme_id := PNum 7 |} ];
  templates := [ acme_forgot ];
  layouts := [ acme_layout ];
  files := {[ "./templates/layout/default.hbs" := "<html>";
              "./templates/forgot-password.hbs" := "<form>" ]};
|}.

Definition c1 : client_row := {| client_id := "c1"; theme_id := PNull |}.
Definition c2 : client_row := {| client_id := "c2"; theme_id := PNum 7 |}.

Definition acme_template : Template :=
  {| attributes := acme_forgot; layout := Some acme_layout |}.

Definition ctx0 : object := [("title", VStr "Forgot Password")].

(** Collaborators of the user controller over a small back end: the
    user table, the mails sent and what has been rendered. *)
Import UserController.

Record Backend : Type := {
  users : gmap string object;
  outbox : list value;
  rendered : list value;
}.

Definition toy_hash (password : value) : value :=
  match password with
  | VPrim (PStr p) => VStr ("#" ++ p)
  | _ => VStr "#"
  end.

Definition toy_matches (current : value) (stored : value) : bool :=
  match toy_hash current, stored with
  | VPrim (PStr h), VPrim (PStr h') => String.eqb h h'
  | _, _ => false
  end.

#[export] Instance toy_services : Services Backend := {|
  comparePasswords := fun current user b =>
    (Ok (VPrim (PBool (toy_matches current (get "password" user)))), b);
  encryptPassword := fun password b => (Ok (toy_hash password), b);
  update := fun id patch b =>
    match id with
    | VPrim (PStr id) =>
        match users b !! id with
        | Some attrs =>
            (Ok tt, {| users := <[id := Object_assign attrs patch]> (users b);
                       outbox := outbox b; rendered := rendered b |})
        | None => (Err (ServiceError "no such user"), b)
        end
    | _ => (Err (ServiceError "no such user"), b)
    end;
  sendPasswordChangeEmail := fun email client b =>
    (Ok tt, {| users := users b; outbox := outbox b ++ [email];
               rendered := rendered b |});
|}.

Definition toy_render (error : value) : M Backend unit :=
  fun b => (Ok tt, {| users := users b; outbox := outbox b;
                      rendered := rendered b ++ [error] |}).

Definition alice : object :=
  [("id", VStr "u1"); ("email", VStr "alice@example.org");
   ("password", VStr "#old")].

Definition backend0 : Backend :=
  {| users := {[ "u1" := alice ]}; outbox := []; rendered := [] |}.

(** A user that the backend does not hold: updating it throws. *)
Definition stranger : object :=
  [("id", VStr "u9"); ("email", VStr "eve@example.org");
   ("password", VStr "#old")].

Definition change_to_new (current : string) : Request :=
  {| payload := [("current", VStr current); ("password", VStr "new")];
     query := [] |}.

(** A payload with a nested field name and a plain one. *)
Definition profile_payload : object :=
  [("address.city", VStr "Oslo"); ("name", VStr "Alice");
   ("address.zip", VStr "0150")].

(** A payload in which the path of one key runs through another. *)
Definition clashing_payload : object :=
  [("a.b", VStr "x"); ("a", VStr "y")].

(** A payload with a quoted segment that is the name of another key. *)
Definition quoted_payload : object :=
  [("['x.y'].z", VStr "2"); ("x.y", VStr "1")].

(** A payload whose key leads to [constructor]. *)
Definition unsafe_payload : object :=
  [("constructor.x", VStr "x")].

(** A payload whose key has a dot and no segment. *)
Definition pathless_payload : object :=
  [("[.]", VStr "x")].

(** A payload with bracketed array indices. *)
Definition contact_payload : object :=
  [("name", VStr "Alice"); ("phones[0].number", VStr "555");
   ("phones[1].number", VStr "556"); ("address.city", VStr "Oslo")].

End Examples.

(* ===================================================================== *)
(** * user-controller.js: the other handlers *)
(* ===================================================================== *)

Module Handlers.
Import JS.
Local Open Scope async_scope.

(** ** [oldPicture.replace(/^.*\/\/[^\/]+\//, '')] *)

(** After [//]: one or more characters other than [/], then [/]; the
    rest of the string is returned.  [seen] tells that a character has
    been read. *)
Fixpoint match_host (seen : bool) (s : string) : option string :=
  match s with
  | EmptyString => None
  | String c s' =>
      if Ascii.eqb c "/" then (if seen then Some s' else None)
      else match_host true s'
  end.

(** The part of the pattern after [.*], tried at the start of [s]. *)
Definition match_here (s : string) : option string :=
  match s with
  | String c1 (String c2 s') =>
      if Ascii.eqb c1 "/" && Ascii.eqb c2 "/" then match_host false s'
      else None
  | _ => None
  end.

(** The pattern from [.*] on, at the start of [s]: [.*] is greedy, so the
    match that lets it take the most characters wins; [.] takes no line
    terminator. *)
Fixpoint match_origin (s : string) : option string :=
  match s with
  | EmptyString => None
  | String c s' =>
      match (if line_break_at s then None else match_origin s') with
      | Some rest => Some rest
      | None => match_here s
      end
  end.

(** [s.replace(/^.*\/\/[^\/]+\//, '')] on a string. *)
Definition replace_origin (s : string) : string :=
  match match_origin s with
  | Some rest => rest
  | None => s
  end.

(** The same on a value that is truthy: only a string has [replace]. *)
Definition call_replace_origin (v : value) : result value :=
  match v with
  | VPrim (PStr s) => Ok (VStr (replace_origin s))
  | _ => Err (TypeError "oldPicture.replace is not a function")
  end.

(** Every character of [s] satisfies [p]. *)
Fixpoint all_chars (p : ascii -> bool) (s : string) : bool :=
  match s with
  | EmptyString => true
  | String c s' => p c && all_chars p s'
  end.

Definition starts_with_slash (s : string) : bool :=
  match s with
  | String c _ => Ascii.eqb c "/"
  | EmptyString => false
  end.

Definition not_slash (c : ascii) : bool := negb (Ascii.eqb c "/").

(** No line terminator starts anywhere in [s]. *)
Fixpoint no_line_break (s : string) : bool :=
  match s with
  | EmptyString => true
  | String _ s' => negb (line_break_at s) && no_line_break s'
  end.

(** [s] contains [//]. *)
Fixpoint has_double_slash (s : string) : bool :=
  match s with
  | EmptyString => false
  | String c s' =>
      (Ascii.eqb c "/" && starts_with_slash s') || has_double_slash s'
  end.

(** ** Values *)

(** [v.k] for a name [k] that no primitive has: a type error on
    undefined and null, undefined on any other primitive. *)
Definition member (k : string) (v : value) : result value :=
  match v with
  | VObj _ props => Ok (get k props)
  | VPrim PUndefined =>
      Err (TypeError ("Cannot read property '" ++ k ++ "' of undefined"))
  | VPrim PNull =>
      Err (TypeError ("Cannot read property '" ++ k ++ "' of null"))
  | VPrim _ => Ok undefined
  end.

(** [v === 'literal']. *)
Definition is_string (v : value) (literal : string) : bool :=
  match v with
  | VPrim (PStr s) => String.eqb s literal
  | _ => false
  end.


(** ** What the handlers receive *)

Record Request : Type := {
  payload : object;
  query : object;
  state : object;               (* the cookies *)
}.

(** The user model, through the two attributes the handlers read with
    [user.get]: [id], and [profile], which is an object. *)
Record User : Type := {
  id : value;
  profile : object;
}.

(** What [findByEmailForOidc] resolves to when there is such a user. *)
Record Account : Type := {
  accountId : value;
}.

(** An argument of a view function, which the handlers call with values
    and with the request. *)
Inductive arg : Type :=
| ArgValue (v : value)
| ArgRequest (r : Request).

(** What [reply] is called with: the rendered page, or a caught error. *)
Inductive response : Type :=
| Html (html : string)
| Failure (e : error).

(** The collaborators, none of which is part of the sources.  [S] is
    what they keep. *)
Class Platform (S : Type) : Type := {
  userService_create : value -> value -> M S value;
  userService_findByEmailForOidc : value -> M S (option Account);
  userService_createPasswordResetToken : value -> M S value;
  userService_sendForgotPasswordEmail : value -> object -> value -> M S unit;
  userService_invalidateSession : value -> M S unit;
  userService_findByPasswordToken : value -> M S (option User);
  userService_encryptPassword : value -> M S value;
  userService_update : value -> object -> M S unit;
  userService_destroyPasswordToken : value -> M S unit;
  imageService_deleteImage : value -> M S unit;
  reply : response -> M S unit;
  reply_redirect : value -> M S unit;
  reply_view : string -> object -> M S unit;
  views_forgotPassword : Request -> value -> object;
  views_resetPassword : arg -> arg -> arg -> object;
  views_resetPasswordSuccess : value -> Request -> object;
  querystring_stringify : object -> string;
}.

(** The calls the handlers make, with their arguments. *)
Inductive call : Type :=
| Create (email password : value)
| FindByEmailForOidc (email : value)
| CreatePasswordResetToken (account : value)
| SendForgotPasswordEmail (email : value) (query : object) (token : value)
| InvalidateSession (sessionId : value)
| FindByPasswordToken (token : value)
| EncryptPassword (password : value)
| Update (user : value) (patch : object)
| DestroyPasswordToken (token : value)
| DeleteImage (key : value)
| Reply (r : response)
| ReplyRedirect (uri : value)
| ReplyView (name : string) (context : object)
| Render (error : value)
| ConsoleError (msg : string).

(** The collaborators' state, the state of the theme service and the
    calls made so far, oldest first. *)
Record State (S : Type) : Type := {
  platform : S;
  theme : ThemeService.State;
  calls : list call;
}.
Arguments platform {S} _.
Arguments theme {S} _.
Arguments calls {S} _.

(** [Boom.notFound()]. *)
Definition Boom_notFound : error := ServiceError "Not Found".

(** The reference error of a [const] read in its own initialiser. *)
Definition ReferenceError (name : string) : error :=
  ServiceError ("ReferenceError: " ++ name).

Section Controller.
Context `{ThemeService.Deps} {S : Type} `{Platform S}.

(** Calling a collaborator: the call is logged, then it runs. *)
Definition invoke {A} (c : call) (m : M S A) : M (State S) A :=
  fun s =>
    let (r, sv) := m (platform s) in
    (r, {| platform := sv; theme := theme s; calls := calls s ++ [c] |}).

(** Logging alone. *)
Definition note (c : call) : M (State S) unit :=
  fun s => (Ok tt, {| platform := platform s; theme := theme s;
                      calls := calls s ++ [c] |}).

(** Calling the theme service. *)
Definition themed {A} (m : M ThemeService.State A) : M (State S) A :=
  fun s =>
    let (r, t) := m (theme s) in
    (r, {| platform := platform s; theme := t; calls := calls s |}).

(** [try { m } catch (e) { handler(e) }], and [promise.catch(handler)]. *)
Definition catch {St A} (m : M St A) (handler : error -> M St A) : M St A :=
  fun s =>
    match m s with
    | (Ok a, s') => (Ok a, s')
    | (Err e, s') => handler e s'
    end.

(** A promise that the handler neither awaits nor returns: the handler
    itself resolves, whatever becomes of the promise. *)
Definition detached {St} (m : M St unit) : M St unit :=
  fun s => let (_, s') := m s in (Ok tt, s').

(** The lines that end every form handler:
    [const template = await themeService.renderThemedTemplate(
       request.query.client_id, page, viewContext);
     if (template) reply(template); else reply.view(page, viewContext);] *)
Definition reply_themed (request : Request) (page : string)
    (viewContext : object) : M (State S) unit :=
  let* template :=
    themed (ThemeService.renderThemedTemplate
              (get "client_id" (query request)) page viewContext) in
  if truthy (VStr template) then invoke (Reply (Html template)) (reply (Html template))
  else invoke (ReplyView page viewContext) (reply_view page viewContext).



(** [updateProfile(request, reply, user, client)]. *)
Definition updateProfile (request : Request) (user : User) : M (State S) unit :=
  let profile := profile user in
  let payload := UserController.expandDotPaths (payload request) in
  let oldPicture := get "picture" profile in
  let* hapi := lift (member "hapi" (get "picture" payload)) in
  let* headers := lift (member "headers" hapi) in
  let* pictureMIME := lift (member "content-type" headers) in
  let* profile :=
    if is_string pictureMIME "image/jpeg" || is_string pictureMIME "image/png"
    then
      (* const uuid = uuid(); *)
      throw (ReferenceError "uuid")
    else
      let payload := delete "picture" payload in
      ret (Object_assign profile payload) in
  invoke (Update (id user) [("profile", VObj false profile)])
         (userService_update (id user) [("profile", VObj false profile)]) ;;
  (if truthy oldPicture then
     let* key := lift (call_replace_origin oldPicture) in
     invoke (DeleteImage key) (imageService_deleteImage key)
   else ret tt) ;;
  let uri := get "redirect_uri" (query request) in
  invoke (ReplyRedirect uri) (reply_redirect uri).

(** [getForgotPasswordForm(request, reply, source, error)]. *)
Definition getForgotPasswordForm (request : Request) (error : value)
    : M (State S) unit :=
  let viewContext := views_forgotPassword request error in
  reply_themed request "forgot-password" viewContext.

(** [postForgotPasswordForm(request, reply)]. *)
Definition postForgotPasswordForm (request : Request) : M (State S) unit :=
  let email := get "email" (payload request) in
  detached
    (catch
       (let* user := invoke (FindByEmailForOidc email)
                            (userService_findByEmailForOidc email) in
        let* token :=
          match user with
          | Some user =>
              invoke (CreatePasswordResetToken (accountId user))
                     (userService_createPasswordResetToken (accountId user))
          | None => ret (VPrim PNull)
          end in
        (if truthy token then
           invoke (SendForgotPasswordEmail email (query request) token)
                  (userService_sendForgotPasswordEmail email (query request) token)
         else ret tt) ;;
        let viewContext := [("title", VStr "Forgot Password")] in
        reply_themed request "forgot-password-success" viewContext)
       (fun e => invoke (Reply (Failure e)) (reply (Failure e)))).

(** [logout(request, reply, source, error)]. *)
Definition logout (request : Request) : M (State S) unit :=
  let sessionId := get "_session" (state request) in
  if negb (truthy sessionId) then
    note (ConsoleError "Session id cookie not present") ;;
    throw Boom_notFound
  else
    invoke (InvalidateSession sessionId)
           (userService_invalidateSession sessionId) ;;
    let uri := get "post_logout_redirect_uri" (query request) in
    invoke (ReplyRedirect uri) (reply_redirect uri).

(** [getResetPasswordForm(title)(request, reply, source, error)]. *)
Definition getResetPasswordForm (title : value) (request : Request)
    (error : value) : M (State S) unit :=
  let viewContext :=
    views_resetPassword (ArgValue title) (ArgRequest request) (ArgValue error) in
  reply_themed request "reset-password" viewContext.

(** [{ token: ['Token is invalid or expired'] }]. *)
Definition token_is_invalid : value :=
  VObj false [("token", VObj true [("0", VStr "Token is invalid or expired")])].

(** [postResetPasswordForm(title)(request, reply)]. *)
Definition postResetPasswordForm (title : value) (request : Request)
    : M (State S) unit :=
  let token := get "token" (query request) in
  let* user := invoke (FindByPasswordToken token)
                      (userService_findByPasswordToken token) in
  match user with
  | Some user =>
      let* password :=
        invoke (EncryptPassword (get "password" (payload request)))
               (userService_encryptPassword (get "password" (payload request))) in
      let profile := assign "email_verified" (VPrim (PBool true)) (profile user) in
      let patch := [("password", password); ("profile", VObj false profile)] in
      invoke (Update (id user) patch) (userService_update (id user) patch) ;;
      invoke (DestroyPasswordToken token)
             (userService_destroyPasswordToken token) ;;
      let viewContext := views_resetPasswordSuccess title request in
      reply_themed request "reset-password-success" viewContext
  | None =>
      let viewContext :=
        views_resetPassword (ArgRequest request) (ArgValue token_is_invalid)
                            (ArgValue undefined) in
      reply_themed request "reset-password" viewContext
  end.

End Controller.

(** ** Vocabulary of the properties *)


(** The state in which the collaborators hold [sv] and the calls [cs]
    have been added. *)
Definition after {S} (s : State S) (sv : S) (cs : list call) : State S :=
  {| platform := sv; theme := theme s; calls := calls s ++ cs |}.

(** The state in which the theme service has moved to [t]. *)
Definition with_theme {S} (s : State S) (t : ThemeService.State) : State S :=
  {| platform := platform s; theme := t; calls := calls s |}.

(** The first answer to a request whose themed page is rendered from the
    theme state [t], a thrown error being caught and handed to [reply]:
    the page, the plain view when the page is empty, or the error. *)
Definition answer `{ThemeService.Deps} (request : Request) (page : string)
    (viewContext : object) (t : ThemeService.State) : call :=
  match ThemeService.renderThemedTemplate
          (get "client_id" (query request)) page viewContext t with
  | (Ok template, _) =>
      if truthy (VStr template) then Reply (Html template)
      else ReplyView page viewContext
  | (Err e, _) => Reply (Failure e)
  end.

End Handlers.

Module HandlerExamples.
Import JS Handlers.

(** The theme service of the earlier examples. *)
#[export] Existing Instance Examples.deps.

(** A small site: the registered addresses.  Creating a user fails for a
    registered address; the one valid reset token is [tok]. *)
Definition registered (email : value) (site : list string) : bool :=
  match email with
  | VPrim (PStr e) => existsb (String.eqb e) site
  | _ => false
  end.

Definition bob : User :=
  {| id := VStr "u2";
     profile := [("name", VStr "Bob");
                 ("picture", VStr "https://cdn.example.org/pictures/ab/bob.png")] |}.

#[export] Instance toy_platform : Platform (list string) := {|
  userService_create := fun email password site =>
    match email with
    | VPrim (PStr e) =>
        if registered email site
        then (Err (ServiceError "duplicate key"), site)
        else (Ok email, e :: site)
    | _ => (Err (ServiceError "email is required"), site)
    end;
  userService_findByEmailForOidc := fun email site =>
    (Ok (if registered email site then Some {| accountId := email |} else None),
     site);
  userService_createPasswordResetToken := fun account site =>
    (Ok (VStr "tok"), site);
  userService_sendForgotPasswordEmail := fun email query token site =>
    (Ok tt, site);
  userService_invalidateSession := fun sessionId site => (Ok tt, site);
  userService_findByPasswordToken := fun token site =>
    (Ok (if is_string token "tok" then Some bob else None), site);
  userService_encryptPassword := fun password site =>
    (Ok (Examples.toy_hash password), site);
  userService_update := fun user patch site => (Ok tt, site);
  userService_destroyPasswordToken := fun token site => (Ok tt, site);
  imageService_deleteImage := fun key site => (Ok tt, site);
  reply := fun r site => (Ok tt, site);
  reply_redirect := fun uri site => (Ok tt, site);
  reply_view := fun name context site => (Ok tt, site);
  views_forgotPassword := fun request error =>
    [("title", VStr "Forgot Password"); ("error", error)];
  views_resetPassword := fun title request error =>
    [("title", match title with ArgValue v => v | ArgRequest _ => undefined end)];
  views_resetPasswordSuccess := fun title request => [("title", title)];
  querystring_stringify := fun query =>
    match query with
    | (k, VPrim (PStr v)) :: _ => k ++ "=" ++ v
    | _ => ""
    end;
|}.

Definition toy_render (error : value) : M (list string) unit :=
  fun site => (Ok tt, site).

Definition site0 : list string := ["alice@example.org"].

(** A request of client [c1], which has no theme. *)
Definition request_of (payload : object) : Request :=
  {| payload := payload;
     query := [("client_id", VStr "c1"); ("token", VStr "expired");
               ("redirect_uri", VStr "/profile");
               ("post_logout_redirect_uri", VStr "/bye")];
     state := [("_session", VStr "sid")] |}.

(** The same without a client identifier and without a session. *)
Definition anonymous_request (payload : object) : Request :=
  {| payload := payload; query := [("token", VStr "tok")]; state := [] |}.

(** A file part of the given content type. *)
Definition file_part (mime : string) : value :=
  VObj false
    [("hapi", VObj false
        [("headers", VObj false [("content-type", VStr mime)])])].

Definition start : State (list string) :=
  {| platform := site0; theme := ThemeService.initial Examples.w0; calls := [] |}.

End HandlerExamples.

(* ===================================================================== *)
(** * Properties of the theme service *)
(* ===================================================================== *)

Import JS.
Local Open Scope list_scope.
Local Open Scope async_scope.

Section ObjectLemmas.

Lemma assign_fresh k v (o : object) :
  k ∉ keys o -> assign k v o = o ++ [(k, v)].
Proof.
  induction o as [|[k' v'] o IH]; intros Hk; simpl; [reflexivity|].
  apply not_elem_of_cons in Hk as [Hne Hk]. simpl in Hne.
  destruct (String.eqb_spec k k') as [->|_]; [contradiction|].
  by rewrite IH.
Qed.

Lemma Object_assign_app (target source : object) :
  NoDup (keys (target ++ source)) ->
  Object_assign target source = target ++ source.
Proof.
  revert target.
  induction source as [|[k v] source IH]; intros target Hnd; simpl.
  - by rewrite app_nil_r.
  - unfold Object_assign in *. simpl.
    assert (Hk : k ∉ keys target).
    { unfold keys in Hnd. rewrite fmap_app in Hnd.
      apply NoDup_app in Hnd as (_ & Hdisj & _).
      intros Hin. apply (Hdisj k Hin). simpl. left. }
    rewrite (assign_fresh k v target Hk).
    rewrite IH; rewrite <- app_assoc; simpl; [reflexivity | exact Hnd].
Qed.

(** [Object.assign({}, context)] is a copy of [context]. *)
Lemma Object_assign_copy (context : object) :
  NoDup (keys context) -> Object_assign [] context = context.
Proof. intros Hnd. by rewrite Object_assign_app. Qed.

End ObjectLemmas.

Section ThemeProperties.
Import ThemeService.
Context `{Deps}.

Lemma Hoek_assert_truthy c msg (s : State) :
  truthy c = true -> Hoek_assert c msg s = (Ok tt, s).
Proof. intros Hc. unfold Hoek_assert. by rewrite Hc. Qed.

Lemma Hoek_assert_falsy c msg (s : State) :
  truthy c = false -> Hoek_assert c msg s = (Err (AssertionError msg), s).
Proof. intros Hc. unfold Hoek_assert. by rewrite Hc. Qed.

Lemma logged_logged s evs evs' :
  logged (logged s evs) evs' = logged s (evs ++ evs').
Proof. unfold logged. simpl. by rewrite app_assoc. Qed.

(** What [fetchTemplate] does once the client row is found. *)
Lemma fetchTemplate_found clientId page s c :
  truthy clientId = true ->
  client_of (world s) clientId = Some c ->
  fetchTemplate clientId page s =
    if truthy_prim (theme_id c)
    then (Ok (match template_of (world s) (theme_id c) page with
              | Some t => Some {| attributes := t;
                                  layout := related_layout (world s) t |}
              | None => None
              end),
          logged s [QueryClient clientId; QueryTemplate (theme_id c) page])
    else (Ok None, logged s [QueryClient clientId]).
Proof.
  intros Hc Hfind. unfold fetchTemplate, bind.
  rewrite (Hoek_assert_truthy _ _ _ Hc).
  unfold fetch_client, bind, log, read; simpl.
  unfold client_of in Hfind. rewrite Hfind.
  destruct (truthy_prim (theme_id c)); simpl; [|reflexivity].
  unfold logged, template_of. simpl. by rewrite <- app_assoc.
Qed.

(** Without a custom template [fetchTemplate] answers false, after one
    or two queries. *)
Lemma fetchTemplate_none clientId page s c :
  truthy clientId = true ->
  client_of (world s) clientId = Some c ->
  no_custom_template (world s) c page ->
  exists evs, fetchTemplate clientId page s = (Ok None, logged s evs).
Proof.
  intros Hc Hfind Hno.
  rewrite (fetchTemplate_found _ _ _ _ Hc Hfind).
  destruct (truthy_prim (theme_id c)) eqn:Ht; [|by eexists].
  destruct Hno as [Hnull | Hnone].
  - unfold has_theme in Hnull. congruence.
  - rewrite Hnone. by eexists.
Qed.

(** The default branch, step by step. *)
Lemma render_default_run page context s :
  render_default page context s =
    match files (world s) !! default_layout_path page with
    | None => (Err (ENOENT (default_layout_path page)),
               logged s [ReadFile (default_layout_path page)])
    | Some layoutCode =>
        match files (world s) !! default_page_path page with
        | None => (Err (ENOENT (default_page_path page)),
                   logged s [ReadFile (default_layout_path page);
                             ReadFile (default_page_path page)])
        | Some templateCode =>
            (match handlebars_compile templateCode context with
             | Ok content =>
                 handlebars_compile layoutCode
                   (Object_assign (Object_assign [] context)
                                  [("content", VStr content)])
             | Err e => Err e
             end,
             logged s [ReadFile (default_layout_path page);
                       ReadFile (default_page_path page)])
        end
    end.
Proof.
  unfold render_default, readFileAsync, bind, log, read, lift, logged; simpl.
  destruct (files (world s) !! default_layout_path page) as [lc|]; simpl;
    [|reflexivity].
  rewrite <- app_assoc; simpl.
  destruct (files (world s) !! default_page_path page) as [pc|]; simpl;
    [|reflexivity].
  unfold ret. destruct (handlebars_compile pc context); reflexivity.
Qed.

(** [getThemedTemplate] in terms of [fetchTemplate] and the two
    branches. *)
Lemma getThemedTemplate_run clientId page context s :
  truthy clientId = true ->
  getThemedTemplate clientId page context s =
    match fetchTemplate clientId page s with
    | (Err e, s1) => (Err e, s1)
    | (Ok t, s1) =>
        match (match t with
               | None => render_default page context
               | Some t' => render_custom t' page context
               end) s1 with
        | (Ok html, s2) =>
            (Ok {| template := t; renderedTemplate := html |}, s2)
        | (Err e, s2) => (Err e, s2)
        end
    end.
Proof.
  intros Hc. unfold getThemedTemplate, bind at 1.
  rewrite (Hoek_assert_truthy _ _ _ Hc). unfold bind, ret.
  destruct (fetchTemplate clientId page s) as [[t|e] s1]; reflexivity.
Qed.

Lemma find_first_such {A} (p : A -> bool) (P : A -> Prop) (l : list A) x :
  (forall y, p y = true <-> P y) ->
  first_such P l x -> List.find p l = Some x.
Proof.
  intros Hp (before & after & -> & Hx & Hbefore).
  induction before as [|a before IH]; simpl.
  - apply Hp in Hx. by rewrite Hx.
  - destruct (p a) eqn:Ha.
    + exfalso. apply (Hbefore a); [left | by apply Hp].
    + apply IH. intros y Hy. apply Hbefore. by right.
Qed.

Lemma find_none_such {A} (p : A -> bool) (P : A -> Prop) (l : list A) :
  (forall y, p y = true <-> P y) ->
  (forall y, y ∈ l -> ~ P y) -> List.find p l = None.
Proof.
  intros Hp Hnone. induction l as [|a l IH]; simpl; [done|].
  destruct (p a) eqn:Ha.
  - exfalso. apply (Hnone a); [left | by apply Hp].
  - apply IH. intros y Hy. apply Hnone. by right.
Qed.

Lemma client_matches_spec clientId c :
  client_matches clientId c = true <-> is_client clientId c.
Proof.
  unfold client_matches, is_client, VStr.
  destruct clientId as [[| | | | |id]|]; try (split; [discriminate|congruence]).
  rewrite String.eqb_eq. split; [by intros ->|congruence].
Qed.

Lemma template_matches_spec theme page t :
  template_matches theme page t = true <-> is_template_for theme page t.
Proof.
  unfold template_matches, is_template_for.
  by rewrite andb_true_iff, bool_decide_eq_true, String.eqb_eq.
Qed.

Lemma related_layout_spec w t l :
  layout_relation w t l -> related_layout w t = l.
Proof.
  unfold layout_relation, related_layout. destruct l as [row|]; intros Hl.
  - apply (find_first_such _ _ _ _ (fun r => bool_decide_eq_true _) Hl).
  - apply (find_none_such _ (fun r => layout_key r = template_layout_id t));
      [intros r; apply bool_decide_eq_true | done].
Qed.

(** C1.  For the Client record that the identifier designates and any
    page name, [fetchTemplate] answers false when the client has no
    theme reference, answers false when no Template row is of the
    client's theme and named [page], and otherwise answers the Template
    row of that theme and name together with its Layout relation. *)
Theorem fetchTemplate_scenarios clientId page s c :
  truthy clientId = true ->
  first_such (is_client clientId) (clients (world s)) c ->
  (has_theme c = false ->
   fst (fetchTemplate clientId page s) = Ok None) /\
  ((forall t, t ∈ templates (world s) ->
              ~ is_template_for (theme_id c) page t) ->
   fst (fetchTemplate clientId page s) = Ok None) /\
  (forall t l,
     has_theme c = true ->
     first_such (is_template_for (theme_id c) page) (templates (world s)) t ->
     layout_relation (world s) t l ->
     fst (fetchTemplate clientId page s)
     = Ok (Some {| attributes := t; layout := l |})).
Proof.
  intros Hc Hclient.
  assert (Hfind : client_of (world s) clientId = Some c)
    by exact (find_first_such _ _ _ _ (client_matches_spec clientId) Hclient).
  rewrite (fetchTemplate_found _ _ _ _ Hc Hfind). unfold has_theme, template_of.
  repeat split.
  - intros ->. reflexivity.
  - intros Hnone.
    rewrite (find_none_such _ _ _ (template_matches_spec (theme_id c) page)
               Hnone).
    by destruct (truthy_prim (theme_id c)).
  - intros t l -> Ht Hl.
    rewrite (find_first_such _ _ _ _ (template_matches_spec (theme_id c) page)
               Ht).
    by rewrite (related_layout_spec _ _ _ Hl).
Qed.

(** C2.  For a client with no custom template for the page and any
    context, the HTML that [getThemedTemplate] returns is the one the
    specification describes: the default page file compiled and
    rendered with the context, the result placed in the context under
    [content], and the mapped default layout rendered with the merged
    context. *)
Theorem getThemedTemplate_default_html clientId page context s c :
  truthy clientId = true ->
  client_of (world s) clientId = Some c ->
  no_custom_template (world s) c page ->
  NoDup (keys context) ->
  (forall html,
     spec_default_html (files (world s)) page context = Some html ->
     fst (getThemedTemplate clientId page context s)
     = Ok {| template := None; renderedTemplate := html |}) /\
  (is_Some (defaultLayouts !! page) ->
   forall r,
     fst (getThemedTemplate clientId page context s) = Ok r ->
     template r = None /\
     spec_default_html (files (world s)) page context
     = Some (renderedTemplate r)).
Proof.
  intros Hc Hfind Hno Hnd.
  destruct (fetchTemplate_none _ page _ _ Hc Hfind Hno) as [evs Hfetch].
  rewrite (getThemedTemplate_run _ _ _ _ Hc), Hfetch, render_default_run.
  rewrite (Object_assign_copy _ Hnd).
  unfold Object_assign, spec_default_html, default_layout_path,
    default_page_path, default_layout_name; simpl.
  split.
  - intros html.
    destruct (files (world s) !! _) as [pc|]; [|discriminate].
    destruct (handlebars_compile pc context) as [content|e]; [|discriminate].
    destruct (defaultLayouts !! page) as [name|]; [|discriminate].
    destruct (files (world s) !! _) as [lc|]; [|discriminate].
    destruct (handlebars_compile lc _) as [html'|e]; [|discriminate].
    intros [= ->]. reflexivity.
  - intros [name ->].
    destruct (files (world s) !! ("./templates/layout/" ++ name)%string)
      as [lc|]; [|intros r; discriminate].
    destruct (files (world s) !! _) as [pc|]; [|intros r; discriminate].
    destruct (handlebars_compile pc context) as [content|e];
      [|intros r; discriminate].
    destruct (handlebars_compile lc _) as [html'|e];
      intros r; simpl; [|discriminate].
    intros [= <-]. split; reflexivity.
Qed.

(** C3, amended.  For an existing client with no theme, or whose theme
    has no template for the page, [getThemedTemplate] takes the default
    branch: its outcome is that of rendering the default pair, and when
    the page's default layout and page files exist and render, it and
    [renderThemedTemplate] return that HTML. *)
Theorem getThemedTemplate_falls_back clientId page context s c :
  truthy clientId = true ->
  client_of (world s) clientId = Some c ->
  no_custom_template (world s) c page ->
  (exists s1,
     fetchTemplate clientId page s = (Ok None, s1) /\
     getThemedTemplate clientId page context s
     = (let (r, s2) := render_default page context s1 in
        (result_map (fun html => {| template := None;
                                    renderedTemplate := html |}) r, s2))) /\
  (forall layoutCode templateCode content html,
     files (world s) !! default_layout_path page = Some layoutCode ->
     files (world s) !! default_page_path page = Some templateCode ->
     handlebars_compile templateCode context = Ok content ->
     handlebars_compile layoutCode
       (Object_assign (Object_assign [] context) [("content", VStr content)])
     = Ok html ->
     fst (getThemedTemplate clientId page context s)
     = Ok {| template := None; renderedTemplate := html |} /\
     fst (renderThemedTemplate clientId page context s) = Ok html).
Proof.
  intros Hc Hfind Hno.
  destruct (fetchTemplate_none _ page _ _ Hc Hfind Hno) as [evs Hfetch].
  split.
  - exists (logged s evs). split; [exact Hfetch|].
    rewrite (getThemedTemplate_run _ _ _ _ Hc), Hfetch.
    by destruct (render_default page context (logged s evs)) as [[html|e] s2].
  - intros lc tc content html Hl Ht Hpage Hlayout.
    unfold renderThemedTemplate, bind.
    rewrite (getThemedTemplate_run _ _ _ _ Hc), Hfetch, render_default_run.
    change (world (logged s evs)) with (world s).
    rewrite Hl, Ht, Hpage, Hlayout. split; reflexivity.
Qed.

(** C4.  [renderThemedTemplate] returns the [renderedTemplate]
    component of what [getThemedTemplate] returns, throws what it
    throws, and does nothing else. *)
Theorem renderThemedTemplate_is_projection clientId page context s :
  renderThemedTemplate clientId page context s
  = (let (r, s') := getThemedTemplate clientId page context s in
     (result_map renderedTemplate r, s')).
Proof.
  unfold renderThemedTemplate, bind, ret.
  by destruct (getThemedTemplate clientId page context s) as [[r|e] s'].
Qed.

(** C5.  With a falsy client identifier, [fetchTemplate] and
    [getThemedTemplate] throw their assertion error and leave the state
    as it was: no query and no file read has been made. *)
Theorem falsy_clientId_fails_before_io clientId page context s :
  truthy clientId = false ->
  fetchTemplate clientId page s
  = (Err (AssertionError
            "clientId is required in ThemeService::fetchTemplate"), s) /\
  getThemedTemplate clientId page context s
  = (Err (AssertionError
            "clientId is required in ThemeService::getThemedTemplate"), s).
Proof.
  intros Hc. unfold fetchTemplate, getThemedTemplate, bind.
  by rewrite !(Hoek_assert_falsy _ _ _ Hc).
Qed.

(** C6.  When there is no custom template and the default layout file
    or the default page file is missing, [getThemedTemplate] throws the
    file-not-found error of the first missing file and returns
    nothing. *)
Theorem missing_default_file_propagates clientId page context s c :
  truthy clientId = true ->
  client_of (world s) clientId = Some c ->
  no_custom_template (world s) c page ->
  (files (world s) !! default_layout_path page = None ->
   fst (getThemedTemplate clientId page context s)
   = Err (ENOENT (default_layout_path page))) /\
  (is_Some (files (world s) !! default_layout_path page) ->
   files (world s) !! default_page_path page = None ->
   fst (getThemedTemplate clientId page context s)
   = Err (ENOENT (default_page_path page))).
Proof.
  intros Hc Hfind Hno.
  destruct (fetchTemplate_none _ page _ _ Hc Hfind Hno) as [evs Hfetch].
  rewrite (getThemedTemplate_run _ _ _ _ Hc), Hfetch, render_default_run.
  simpl. split.
  - intros ->. reflexivity.
  - intros [lc ->] ->. reflexivity.
Qed.

(** C8.  Whenever [getThemedTemplate] returns, the [template] component
    of the pair is what [fetchTemplate] returns for the same arguments:
    false when the HTML comes from the default branch, the custom
    template when the HTML comes from that template's [render]. *)
Theorem getThemedTemplate_template_is_fetched clientId page context s r s' :
  getThemedTemplate clientId page context s = (Ok r, s') ->
  exists s1,
    fetchTemplate clientId page s = (Ok (template r), s1) /\
    match template r with
    | None =>
        render_default page context s1 = (Ok (renderedTemplate r), s')
    | Some t =>
        render_custom t page context s1 = (Ok (renderedTemplate r), s')
    end.
Proof.
  intros Hrun.
  destruct (truthy clientId) eqn:Hc.
  - rewrite (getThemedTemplate_run _ _ _ _ Hc) in Hrun.
    destruct (fetchTemplate clientId page s) as [[t|e] s1]; [|discriminate].
    exists s1.
    destruct t as [t|].
    + destruct (render_custom t page context s1) as [[html|e] s2] eqn:Hr;
        [|discriminate].
      injection Hrun as <- <-. by split.
    + destruct (render_default page context s1) as [[html|e] s2] eqn:Hr;
        [|discriminate].
      injection Hrun as <- <-. by split.
  - unfold getThemedTemplate, bind in Hrun.
    rewrite (Hoek_assert_falsy _ _ _ Hc) in Hrun. discriminate.
Qed.

End ThemeProperties.

Section ThemeStateless.
Import ThemeService.
Context `{Deps}.

Lemma stateless_ret {A} (a : A) : stateless (ret a).
Proof. by split. Qed.

Lemma stateless_throw {A} e : stateless (@throw State A e).
Proof. by split. Qed.

Lemma stateless_lift {A} (r : result A) : stateless (lift r).
Proof. by split. Qed.

Lemma stateless_log e : stateless (log e).
Proof. by split. Qed.

Lemma stateless_read {A} (f : World -> A) : stateless (read f).
Proof. split; [done|]. intros s1 s2 Hw. unfold read. simpl. by rewrite Hw. Qed.

Lemma stateless_bind {A B} (m : M State A) (k : A -> M State B) :
  stateless m -> (forall a, stateless (k a)) -> stateless (bind m k).
Proof.
  intros [Hm1 Hm2] Hk. split.
  - intros s. unfold bind. specialize (Hm1 s).
    destruct (m s) as [[a|e] s1]; simpl in *; [|done].
    destruct (Hk a) as [Hk1 _]. by rewrite Hk1.
  - intros s1 s2 Hw. unfold bind.
    pose proof (Hm2 s1 s2 Hw) as Hfst.
    pose proof (Hm1 s1) as Hw1. pose proof (Hm1 s2) as Hw2.
    destruct (m s1) as [r1 t1], (m s2) as [r2 t2]; simpl in *. subst r2.
    destruct r1 as [a|e]; [|done].
    destruct (Hk a) as [_ Hk2]. apply Hk2. congruence.
Qed.

Lemma stateless_Hoek_assert c msg : stateless (Hoek_assert c msg).
Proof.
  unfold Hoek_assert.
  destruct (truthy c); [apply stateless_ret | apply stateless_throw].
Qed.

Ltac stateless_step :=
  first
    [ apply stateless_bind; [|intros ?]
    | apply stateless_ret | apply stateless_throw | apply stateless_lift
    | apply stateless_log | apply stateless_read
    | apply stateless_Hoek_assert
    | match goal with
      | |- stateless (match ?x with _ => _ end) => destruct x
      end ].

Lemma stateless_fetchTemplate clientId page :
  stateless (fetchTemplate clientId page).
Proof.
  unfold fetchTemplate, fetch_client, fetch_template.
  repeat stateless_step.
Qed.

Lemma stateless_render_default page context :
  stateless (render_default page context).
Proof. unfold render_default, readFileAsync. repeat stateless_step. Qed.

Lemma stateless_getThemedTemplate clientId page context :
  stateless (getThemedTemplate clientId page context).
Proof.
  unfold getThemedTemplate.
  apply stateless_bind; [apply stateless_Hoek_assert | intros _].
  apply stateless_bind; [apply stateless_fetchTemplate | intros t].
  apply stateless_bind; [|intros ?; apply stateless_ret].
  destruct t as [t|]; [|apply stateless_render_default].
  unfold render_custom. repeat stateless_step.
Qed.

(** A stateless call made a second time, right after the first, gives
    the same outcome, and the data are still as they were. *)
Lemma stateless_repeat {A} (m : M State A) s :
  stateless m ->
  fst (m (snd (m s))) = fst (m s) /\ world (snd (m (snd (m s)))) = world s.
Proof.
  intros [Hw Hfst]. split.
  - apply Hfst, Hw.
  - by rewrite !Hw.
Qed.

(** Being stateless is not a matter of type: an operation that wrote a
    file or saved a row would not be, and neither would one that
    answered from what has been called before. *)
Lemma writeFileAsync_not_stateless path content :
  ~ stateless (writeFileAsync path content).
Proof.
  intros [Hworld _].
  specialize (Hworld (initial {| clients := []; templates := []; layouts := [];
                                 files := ∅ |})).
  apply (f_equal (fun w => files w !! path)) in Hworld. simpl in Hworld.
  by rewrite lookup_insert_eq, lookup_empty in Hworld.
Qed.

Lemma save_theme_id_not_stateless :
  ~ stateless (save_theme_id "c1" (PNum 7)).
Proof.
  intros [Hworld _].
  specialize (Hworld (initial {| clients := [ {| client_id := "c1";
                                                 theme_id := PNull |} ];
                                 templates := []; layouts := [];
                                 files := ∅ |})).
  discriminate Hworld.
Qed.

Lemma call_count_not_stateless :
  ~ stateless (fun s : State => (Ok (List.length (io s)), s)).
Proof.
  intros [_ Hsame].
  specialize (Hsame {| world := {| clients := []; templates := [];
                                   layouts := []; files := ∅ |};
                       io := [] |}
                    {| world := {| clients := []; templates := [];
                                   layouts := []; files := ∅ |};
                       io := [ReadFile "x"] |}
                    eq_refl).
  discriminate Hsame.
Qed.

(** C7.  Every operation of the theme service leaves the persisted
    client, template and layout rows and the files as they were, and
    its outcome is determined by its arguments and those data alone:
    whatever else differs between two calls, equal data give equal
    outcomes.  The operations only query and read; [template.render]
    and the compiled templates are taken as the specification takes
    them, as functions from a context to HTML. *)
Theorem theme_service_stateless clientId page context :
  stateless (fetchTemplate clientId page) /\
  stateless (getThemedTemplate clientId page context) /\
  stateless (renderThemedTemplate clientId page context).
Proof.
  split; [apply stateless_fetchTemplate|].
  split; [apply stateless_getThemedTemplate|].
  unfold renderThemedTemplate.
  apply stateless_bind; [apply stateless_getThemedTemplate|].
  intros r. apply stateless_ret.
Qed.

End ThemeStateless.

(* ===================================================================== *)
(** * Properties of the user controller *)
(* ===================================================================== *)

Section PropertyLists.

Lemma lookup_assign_same k v (o : object) : lookup k (assign k v o) = Some v.
Proof.
  induction o as [|[k' v'] o IH]; simpl.
  - by rewrite String.eqb_refl.
  - destruct (String.eqb_spec k k') as [->|Hne]; simpl.
    + by rewrite String.eqb_refl.
    + by destruct (String.eqb_spec k k').
Qed.

Lemma lookup_assign_other k k' v (o : object) :
  k <> k' -> lookup k' (assign k v o) = lookup k' o.
Proof.
  intros Hne. induction o as [|[k0 v0] o IH]; simpl.
  - by destruct (String.eqb_spec k' k) as [->|_].
  - destruct (String.eqb_spec k k0) as [->|Hk]; simpl.
    + by destruct (String.eqb_spec k' k0) as [->|_].
    + by rewrite IH.
Qed.

Lemma lookup_delete_same k (o : object) : lookup k (delete k o) = None.
Proof.
  induction o as [|[k' v'] o IH]; simpl; [done|].
  destruct (String.eqb_spec k k') as [->|Hne]; simpl; [done|].
  by destruct (String.eqb_spec k k').
Qed.

Lemma lookup_delete_other k k' (o : object) :
  k <> k' -> lookup k' (delete k o) = lookup k' o.
Proof.
  intros Hne. induction o as [|[k0 v0] o IH]; simpl; [done|].
  destruct (String.eqb_spec k k0) as [->|Hk]; simpl.
  - rewrite IH. by destruct (String.eqb_spec k' k0) as [->|_].
  - by rewrite IH.
Qed.

Lemma lookup_Some_keys k v (o : object) : lookup k o = Some v -> k ∈ keys o.
Proof.
  induction o as [|[k' v'] o IH]; simpl; [done|].
  destruct (String.eqb_spec k k') as [->|Hne]; intros Hl.
  - left.
  - right. by apply IH.
Qed.

Lemma get_lookup k v (o : object) : lookup k o = Some v -> get k o = v.
Proof. unfold get. by intros ->. Qed.

End PropertyLists.

Section ExpandDotPaths.
Import UserController.

(** ** Paths *)

Lemma gtb_minus_one z : (z >? -1)%Z = negb (z <? 0)%Z.
Proof.
  rewrite Z.gtb_ltb.
  destruct (Z.ltb_spec (-1) z), (Z.ltb_spec z 0); try done; exfalso; lia.
Qed.

Lemma has_char_cons a c s :
  (indexOf a (String c s) >? -1)%Z = Ascii.eqb c a || (indexOf a s >? -1)%Z.
Proof.
  cbn [indexOf]. destruct (Ascii.eqb c a); [done|].
  rewrite !gtb_minus_one.
  destruct (Z.ltb_spec (indexOf a s) 0) as [Hlt|Hge]; [done|].
  cbn [orb negb]. destruct (Z.ltb_spec (indexOf a s + 1) 0); [exfalso; lia|done].
Qed.

Lemma has_dot_cons c s : has_dot (String c s) = Ascii.eqb c "." || has_dot s.
Proof. apply has_char_cons. Qed.

Lemma has_dot_deep key : has_dot key = true -> reIsDeepProp key = true.
Proof.
  induction key as [|c key IH]; [done|].
  rewrite has_dot_cons. cbn [reIsDeepProp].
  destruct (Ascii.eqb c "."); [done|]. cbn [orb]. intros Hd.
  rewrite (IH Hd). apply orb_true_r.
Qed.

Lemma has_dot_not_plain key : has_dot key = true -> reIsPlainProp key = false.
Proof.
  induction key as [|c key IH]; [done|].
  rewrite has_dot_cons. cbn [reIsPlainProp].
  destruct (Ascii.eqb_spec c ".") as [->|_]; [done|]. cbn [orb]. intros Hd.
  rewrite (IH Hd). apply andb_false_r.
Qed.

Lemma path_of_plain key : has_dot key = false -> path_of key = [key].
Proof. unfold path_of. by intros ->. Qed.

Lemma path_of_dotted key :
  has_dot key = true -> path_of key = stringToPath key.
Proof. unfold path_of. by intros ->. Qed.

(** After [delete object[key]], [set] follows the path of a key with a
    dot. *)
Lemma castPath_deleted key (o : object) :
  has_dot key = true -> castPath key (delete key o) = stringToPath key.
Proof.
  intros Hd. unfold castPath, isKey.
  rewrite (has_dot_deep _ Hd), (has_dot_not_plain _ Hd), lookup_delete_same.
  rewrite bool_decide_eq_false_2; [done|]. by intros [? ?].
Qed.

(** ** [baseSet] *)

Lemma baseSet_unsafe h t v (o : object) :
  unsafe_key h = true -> baseSet (h :: t) v o = o.
Proof. intros Hu. cbn [baseSet]. by rewrite Hu. Qed.

Lemma baseSet_last h v (o : object) :
  unsafe_key h = false -> baseSet [h] v o = assign h v o.
Proof. intros Hu. cbn [baseSet]. by rewrite Hu. Qed.

Lemma baseSet_descend h next t v (o : object) :
  unsafe_key h = false ->
  baseSet (h :: next :: t) v o =
    match get h o with
    | VObj arr props => assign h (VObj arr (baseSet (next :: t) v props)) o
    | VPrim _ => assign h (VObj (isIndex next) (baseSet (next :: t) v [])) o
    end.
Proof. intros Hu. cbn [baseSet]. rewrite Hu. by destruct (get h o). Qed.

Lemma lookup_baseSet_ne h t v k (o : object) :
  k <> h -> lookup k (baseSet (h :: t) v o) = lookup k o.
Proof.
  intros Hne. destruct (unsafe_key h) eqn:Hu; [by rewrite baseSet_unsafe|].
  destruct t as [|next t].
  - rewrite baseSet_last by done. by rewrite lookup_assign_other.
  - rewrite baseSet_descend by done.
    destruct (get h o); by rewrite lookup_assign_other.
Qed.

Lemma get_path_baseSet_same path v arr (o : object) :
  path <> [] -> Forall (fun seg => unsafe_key seg = false) path ->
  get_path path (VObj arr (baseSet path v o)) = Some v.
Proof.
  revert arr o. induction path as [|h t IH]; intros arr o Hne Hsafe; [done|].
  apply Forall_cons in Hsafe as [Hh Ht].
  destruct t as [|next t].
  - rewrite baseSet_last by done. simpl. by rewrite lookup_assign_same.
  - change (get_path (h :: next :: t) (VObj arr (baseSet (h :: next :: t) v o)))
      with (match lookup h (baseSet (h :: next :: t) v o) with
            | Some v' => get_path (next :: t) v'
            | None => None
            end).
    rewrite baseSet_descend by done.
    destruct (get h o); rewrite lookup_assign_same; by apply IH.
Qed.

(** A write along [p] is not seen along [q] when neither path runs
    through the other, wherever the write stops. *)
Lemma get_path_baseSet_independent p q v arr (o : object) :
  ~ p `prefix_of` q -> ~ q `prefix_of` p ->
  get_path q (VObj arr (baseSet p v o)) = get_path q (VObj arr o).
Proof.
  revert q arr o. induction p as [|h t IH]; intros q arr o Hpq Hqp.
  { exfalso. apply Hpq, prefix_nil. }
  destruct q as [|h' t']; [exfalso; apply Hqp, prefix_nil|].
  cbn [get_path].
  destruct (decide (h' = h)) as [->|Hne];
    [|by rewrite lookup_baseSet_ne].
  destruct (unsafe_key h) eqn:Hu; [by rewrite baseSet_unsafe|].
  assert (Ht : ~ t `prefix_of` t') by (intros Hp; by apply Hpq, prefix_cons).
  assert (Ht' : ~ t' `prefix_of` t) by (intros Hp; by apply Hqp, prefix_cons).
  destruct t as [|next t]; [exfalso; apply Ht, prefix_nil|].
  destruct t' as [|next' t'']; [exfalso; apply Ht', prefix_nil|].
  rewrite baseSet_descend by done.
  destruct (get h o) as [p0|arr0 props0] eqn:Hg;
    rewrite lookup_assign_same, IH by done; unfold get in Hg.
  - destruct (lookup h o) as [[p1|arr1 props1]|]; [done|discriminate|done].
  - destruct (lookup h o) as [v0|]; [|discriminate]. by subst v0.
Qed.

(** An [own_walk] has a first step and stops at no unsafe key. *)
Lemma own_walk_safe arr (o : object) path :
  own_walk arr o path = true ->
  path <> [] /\ Forall (fun seg => unsafe_key seg = false) path.
Proof.
  revert arr o. induction path as [|h t IH]; intros arr o; [done|].
  cbn [own_walk]. intros [Hh Hrest]%andb_true_iff.
  apply negb_true_iff in Hh. split; [done|]. apply Forall_cons. split; [done|].
  destruct t as [|next t]; [apply Forall_nil_2|].
  destruct (lookup h o) as [[p|arr' props]|].
  - by apply IH in Hrest as [_ ?].
  - by apply IH in Hrest as [_ ?].
  - apply andb_true_iff in Hrest as [_ Hrest]. by apply IH in Hrest as [_ ?].
Qed.

(** ** One key *)

Lemma expand_key_plain (o : object) key :
  has_dot key = false -> expand_key o key = o.
Proof. unfold expand_key, has_dot. by intros ->. Qed.

Lemma expand_key_dotted (o : object) key :
  has_dot key = true ->
  expand_key o key = baseSet (stringToPath key) (get key o) (delete key o).
Proof.
  intros Hd. unfold expand_key, set. rewrite (castPath_deleted _ _ Hd).
  unfold has_dot in Hd. by rewrite Hd.
Qed.

(** Dealing with [key0] leaves the top-level property [key] alone,
    unless the path of [key0] starts at [key]. *)
Lemma expand_key_lookup_other (o : object) key0 key :
  key <> key0 ->
  ~ [key] `prefix_of` path_of key0 ->
  lookup key (expand_key o key0) = lookup key o.
Proof.
  intros Hne Hhead.
  destruct (has_dot key0) eqn:Hd0; [|by rewrite expand_key_plain].
  rewrite (expand_key_dotted _ _ Hd0).
  rewrite (path_of_dotted _ Hd0) in Hhead.
  destruct (stringToPath key0) as [|h t]; [by apply lookup_delete_other|].
  rewrite lookup_baseSet_ne; [by apply lookup_delete_other|].
  intros ->. apply Hhead, prefix_cons, prefix_nil.
Qed.

(** Dealing with [key0] settles it. *)
Lemma expand_key_settles (o : object) key0 v :
  lookup key0 o = Some v ->
  (has_dot key0 = true ->
   own_walk false (delete key0 o) (path_of key0) = true /\
   ~ [key0] `prefix_of` path_of key0) ->
  settled key0 v (expand_key o key0).
Proof.
  intros Hl Hwalk. unfold settled.
  destruct (has_dot key0) eqn:Hd0; [|by rewrite expand_key_plain].
  destruct (Hwalk eq_refl) as [Hown Hhead].
  rewrite (path_of_dotted _ Hd0) in Hown, Hhead.
  apply own_walk_safe in Hown as [Hne Hsafe].
  rewrite (expand_key_dotted _ _ Hd0), (get_lookup _ _ _ Hl). split.
  - destruct (stringToPath key0) as [|h t]; [done|].
    rewrite lookup_baseSet_ne; [apply lookup_delete_same|].
    intros ->. apply Hhead, prefix_cons, prefix_nil.
  - by apply get_path_baseSet_same.
Qed.

(** Dealing with [key0] does not unsettle a key whose path is
    independent of the path of [key0]. *)
Lemma expand_key_settled_other (o : object) key0 key v :
  key <> key0 ->
  ~ path_of key `prefix_of` path_of key0 ->
  ~ path_of key0 `prefix_of` path_of key ->
  (has_dot key = true -> ~ [key] `prefix_of` path_of key0) ->
  (has_dot key0 = true -> ~ [key0] `prefix_of` path_of key) ->
  settled key v o -> settled key v (expand_key o key0).
Proof.
  intros Hne Hkk0 Hk0k Hhead Hhead0. unfold settled.
  destruct (has_dot key) eqn:Hd.
  - intros [Hgone Hat]. split.
    + rewrite expand_key_lookup_other; [done..|by apply Hhead].
    + destruct (has_dot key0) eqn:Hd0; [|by rewrite expand_key_plain].
      rewrite (expand_key_dotted _ _ Hd0).
      specialize (Hhead0 eq_refl).
      rewrite (path_of_dotted _ Hd) in Hkk0, Hk0k, Hhead0.
      rewrite (path_of_dotted _ Hd0) in Hkk0, Hk0k.
      rewrite get_path_baseSet_independent by done.
      rewrite <- Hat.
      destruct (stringToPath key) as [|h t];
        [exfalso; apply Hkk0, prefix_nil|].
      cbn [get_path]. rewrite lookup_delete_other; [done|].
      intros <-. apply Hhead0, prefix_cons, prefix_nil.
  - intros Hl. rewrite expand_key_lookup_other; [done..|].
    by rewrite <- (path_of_plain _ Hd).
Qed.

(** ** All keys *)

Lemma expand_fold (orig : object) ks (o : object) :
  NoDup ks ->
  (forall k, k ∈ ks -> k ∈ keys orig) ->
  paths_independent orig ->
  heads_apart orig ->
  own_walks_from ks o = true ->
  (forall k v, lookup k orig = Some v ->
               if decide (k ∈ ks) then lookup k o = Some v
               else settled k v o) ->
  forall k v, lookup k orig = Some v ->
              settled k v (fold_left expand_key ks o).
Proof.
  intros Hnd Hks Hind Hheads. revert o Hnd Hks.
  induction ks as [|k0 ks IH]; intros o Hnd Hks Hown Hinv k v Hl.
  - specialize (Hinv k v Hl). simpl in *.
    destruct (decide (k ∈ [])) as [Hin|_]; [by apply elem_of_nil in Hin|done].
  - apply NoDup_cons in Hnd as [Hk0 Hnd]. simpl.
    cbn [own_walks_from] in Hown. apply andb_true_iff in Hown as [Hown0 Hown].
    assert (Hk0orig : k0 ∈ keys orig) by (apply Hks; left).
    apply IH; [done| |done|clear k v Hl|done].
    { intros k' Hk'. apply Hks. by right. }
    intros k v Hl. specialize (Hinv k v Hl).
    pose proof (lookup_Some_keys _ _ _ Hl) as Hkorig.
    destruct (decide (k ∈ ks)) as [Hin|Hnin].
    + assert (Hne : k <> k0) by (intros ->; contradiction).
      rewrite decide_True in Hinv by (by right).
      rewrite expand_key_lookup_other; [done..|].
      destruct (has_dot k) eqn:Hd; [by apply Hheads|].
      rewrite <- (path_of_plain _ Hd). by apply Hind.
    + destruct (decide (k = k0)) as [->|Hne].
      * rewrite decide_True in Hinv by left.
        apply expand_key_settles; [done|].
        intros Hd. rewrite Hd in Hown0. split; [done|by apply Hheads].
      * rewrite decide_False in Hinv
          by (intros [?|?]%elem_of_cons; contradiction).
        apply expand_key_settled_other; [done| | | | |done].
        -- by apply Hind.
        -- apply Hind; [done..|]. by intros ->.
        -- intros Hd. by apply Hheads.
        -- intros Hd. by apply Hheads.
Qed.

(** C10, amended.  For an object in which no key's path runs through
    another key or starts at the name of a key with a dot, and in which
    every key with a dot is set by a walk that has a first step and
    stays among own properties, [expandDotPaths] returns the object with
    every key containing a dot removed and its value stored at the
    nested path, and with the keys without a dot unchanged.  Brackets,
    quoted segments, array indices and empty segments are as lodash
    reads them. *)
Theorem expandDotPaths_independent (object : object) :
  NoDup (keys object) ->
  paths_independent object ->
  heads_apart object ->
  own_walks object = true ->
  expanded object.
Proof.
  intros Hnd Hind Hheads Hown key v Hl. unfold expandDotPaths.
  apply (expand_fold object); [done..| |done].
  intros k w Hk. rewrite decide_True; [done|].
  by apply lookup_Some_keys in Hk.
Qed.

End ExpandDotPaths.

Section ChangePassword.
Import UserController.
Context {S : Type} `{Services S}.


End ChangePassword.

(* ===================================================================== *)
(** * The properties on the example data *)
(* ===================================================================== *)

Section OnExamples.
Import ThemeService Examples.

Lemma fetchTemplate_scenarios_witness :
  fst (fetchTemplate (VStr "c1") "forgot-password" (initial w0)) = Ok None /\
  fst (fetchTemplate (VStr "c2") "reset-password" (initial w0)) = Ok None /\
  fst (fetchTemplate (VStr "c2") "forgot-password" (initial w0))
  = Ok (Some acme_template).
Proof.
  assert (H1 : first_such (is_client (VStr "c1")) (clients (world (initial w0)))
                 c1).
  { exists [], [c2]. repeat split. intros y Hy. by apply elem_of_nil in Hy. }
  assert (H2 : first_such (is_client (VStr "c2")) (clients (world (initial w0)))
                 c2).
  { exists [c1], []. repeat split.
    intros y ->%list_elem_of_singleton. discriminate. }
  split; [|split].
  - exact (proj1 (fetchTemplate_scenarios (VStr "c1") "forgot-password"
                    (initial w0) c1 eq_refl H1) eq_refl).
  - apply (proj1 (proj2 (fetchTemplate_scenarios (VStr "c2") "reset-password"
                           (initial w0) c2 eq_refl H2))).
    intros t ->%list_elem_of_singleton [_ Hname]. discriminate Hname.
  - apply (proj2 (proj2 (fetchTemplate_scenarios (VStr "c2") "forgot-password"
                           (initial w0) c2 eq_refl H2))
                 acme_forgot (Some acme_layout) eq_refl).
    + exists [], []. repeat split. intros y Hy. by apply elem_of_nil in Hy.
    + exists [], []. repeat split. intros y Hy. by apply elem_of_nil in Hy.
Defined.

Lemma getThemedTemplate_default_html_witness :
  fst (getThemedTemplate (VStr "c1") "forgot-password" ctx0 (initial w0))
  = Ok {| template := None;
          renderedTemplate :=
            "<html>[Forgot Password|<form>[Forgot Password|]]" |} /\
  spec_default_html (files w0) "forgot-password" ctx0
  = Some "<html>[Forgot Password|<form>[Forgot Password|]]".
Proof.
  assert (Hnd : NoDup (keys ctx0)) by apply NoDup_singleton.
  destruct (getThemedTemplate_default_html (VStr "c1") "forgot-password" ctx0
              (initial w0) c1 eq_refl eq_refl (or_introl eq_refl) Hnd)
    as [Hto Hfrom].
  split.
  - apply Hto. reflexivity.
  - apply (Hfrom (ex_intro _ "default.hbs" eq_refl)
                 {| template := None;
                    renderedTemplate :=
                      "<html>[Forgot Password|<form>[Forgot Password|]]" |}).
    reflexivity.
Defined.

(** C3 as stated fails: client [c1] exists and has no theme, yet for a
    page that has no default files the call throws. *)
Lemma fallback_fails_without_default_files :
  ~ falls_back_without_failure w0 (VStr "c1") "unknown-page" ctx0.
Proof.
  intros Hfb.
  destruct (Hfb c1 eq_refl (or_introl eq_refl)) as (html & s' & Hrun).
  vm_compute in Hrun. discriminate Hrun.
Qed.

Lemma getThemedTemplate_falls_back_witness :
  fst (getThemedTemplate (VStr "c1") "forgot-password" ctx0 (initial w0))
  = Ok {| template := None;
          renderedTemplate :=
            "<html>[Forgot Password|<form>[Forgot Password|]]" |} /\
  fst (renderThemedTemplate (VStr "c1") "forgot-password" ctx0 (initial w0))
  = Ok "<html>[Forgot Password|<form>[Forgot Password|]]".
Proof.
  exact (proj2 (getThemedTemplate_falls_back (VStr "c1") "forgot-password"
                  ctx0 (initial w0) c1 eq_refl eq_refl (or_introl eq_refl))
               "<html>" "<form>" "<form>[Forgot Password|]"
               "<html>[Forgot Password|<form>[Forgot Password|]]"
               eq_refl eq_refl eq_refl eq_refl).
Defined.

Lemma falsy_clientId_fails_before_io_witness :
  fetchTemplate (VStr "") "forgot-password" (initial w0)
  = (Err (AssertionError
            "clientId is required in ThemeService::fetchTemplate"),
     initial w0) /\
  getThemedTemplate undefined "forgot-password" ctx0 (initial w0)
  = (Err (AssertionError
            "clientId is required in ThemeService::getThemedTemplate"),
     initial w0) /\
  getThemedTemplate (VPrim PNull) "forgot-password" ctx0 (initial w0)
  = (Err (AssertionError
            "clientId is required in ThemeService::getThemedTemplate"),
     initial w0).
Proof.
  split; [|split].
  - exact (proj1 (falsy_clientId_fails_before_io (VStr "") "forgot-password"
                    ctx0 (initial w0) eq_refl)).
  - exact (proj2 (falsy_clientId_fails_before_io undefined "forgot-password"
                    ctx0 (initial w0) eq_refl)).
  - exact (proj2 (falsy_clientId_fails_before_io (VPrim PNull)
                    "forgot-password" ctx0 (initial w0) eq_refl)).
Defined.

Lemma missing_default_file_propagates_witness :
  fst (getThemedTemplate (VStr "c1") "unknown-page" ctx0 (initial w0))
  = Err (ENOENT "./templates/layout/undefined") /\
  fst (getThemedTemplate (VStr "c2") "reset-password" ctx0 (initial w0))
  = Err (ENOENT "./templates/reset-password.hbs").
Proof.
  split.
  - exact (proj1 (missing_default_file_propagates (VStr "c1") "unknown-page"
                    ctx0 (initial w0) c1 eq_refl eq_refl (or_introl eq_refl))
                 eq_refl).
  - apply (missing_default_file_propagates (VStr "c2") "reset-password"
             ctx0 (initial w0) c2 eq_refl eq_refl (or_intror eq_refl)).
    + exists "<html>". reflexivity.
    + reflexivity.
Defined.

Lemma getThemedTemplate_template_is_fetched_witness :
  exists s1,
    fetchTemplate (VStr "c2") "forgot-password" (initial w0)
    = (Ok (Some acme_template), s1) /\
    render_custom acme_template "forgot-password" ctx0 s1
    = (Ok "<html>acme</html>[Forgot Password|<p>acme</p>]",
       snd (getThemedTemplate (VStr "c2") "forgot-password" ctx0 (initial w0))).
Proof.
  apply (getThemedTemplate_template_is_fetched (VStr "c2") "forgot-password"
           ctx0 (initial w0)
           {| template := Some acme_template;
              renderedTemplate :=
                "<html>acme</html>[Forgot Password|<p>acme</p>]" |}).
  reflexivity.
Defined.

End OnExamples.

Section OnUserExamples.
Import UserController Examples.


(** C10 as stated fails: with the keys [a.b] and [a], the value of [a]
    is replaced by the object that holds [b].  It also fails where a
    quoted segment is the name of a key with a dot, where a path leads to
    one of the keys at which lodash stops, and where a key with a dot
    has no segment. *)
Lemma expandDotPaths_clashing_keys :
  ~ expanded clashing_payload /\ ~ expanded quoted_payload /\
  ~ expanded unsafe_payload /\ ~ expanded pathless_payload.
Proof.
  repeat split; intros Hex.
  - specialize (Hex "a" (VStr "y") eq_refl).
    vm_compute in Hex. discriminate Hex.
  - specialize (Hex "x.y" (VStr "1") eq_refl).
    vm_compute in Hex. destruct Hex as [_ Hex]. discriminate Hex.
  - specialize (Hex "constructor.x" (VStr "x") eq_refl).
    vm_compute in Hex. destruct Hex as [_ Hex]. discriminate Hex.
  - specialize (Hex "[.]" (VStr "x") eq_refl).
    vm_compute in Hex. destruct Hex as [_ Hex]. discriminate Hex.
Qed.

Ltac each_key H :=
  unfold keys in H; simpl in H;
  repeat (apply elem_of_cons in H as [->|H]); try (by apply elem_of_nil in H).

Ltac no_prefix H :=
  vm_compute in H; destruct H as [rest H]; discriminate H.

Lemma expandDotPaths_independent_witness :
  expanded profile_payload /\ expanded contact_payload.
Proof.
  split; apply expandDotPaths_independent.
  - unfold profile_payload, keys. simpl. compute_done.
  - intros k1 k2 H1 H2 Hne Hpre. unfold profile_payload in H1, H2.
    each_key H1; each_key H2; try congruence; no_prefix Hpre.
  - intros k1 k2 H1 H2 Hd Hpre. unfold profile_payload in H1, H2.
    each_key H1; each_key H2; try discriminate Hd; no_prefix Hpre.
  - reflexivity.
  - unfold contact_payload, keys. simpl. compute_done.
  - intros k1 k2 H1 H2 Hne Hpre. unfold contact_payload in H1, H2.
    each_key H1; each_key H2; try congruence; no_prefix Hpre.
  - intros k1 k2 H1 H2 Hd Hpre. unfold contact_payload in H1, H2.
    each_key H1; each_key H2; try discriminate Hd; no_prefix Hpre.
  - reflexivity.
Defined.

(** What [expandDotPaths] makes of brackets, indices and empty
    segments. *)
Example expandDotPaths_contact :
  expandDotPaths contact_payload
  = [("name", VStr "Alice");
     ("phones",
      VObj true [("0", VObj false [("number", VStr "555")]);
                 ("1", VObj false [("number", VStr "556")])]);
     ("address", VObj false [("city", VStr "Oslo")])].
Proof. reflexivity. Qed.

Example stringToPath_samples :
  map stringToPath ["a.b"; ".a"; "a."; "a..b"; "a[0].b"; "a[].b"; "a[b].c";
                    "a['x.y'].z"; "[.]"; "a[-1.5]"; "a[1.]"]
  = [["a"; "b"]; [""; "a"]; ["a"; ""]; ["a"; ""; "b"]; ["a"; "0"; "b"];
     ["a"; ""; "b"]; ["a"; "b"; "c"]; ["a"; "x.y"; "z"]; []; ["a"; "-1.5"];
     ["a"; "1"]].
Proof. reflexivity. Qed.

End OnUserExamples.


(* ===================================================================== *)
(** * Further properties of the theme service *)
(* ===================================================================== *)

Section ThemeEdges.
Import ThemeService.
Context `{Deps}.

Lemma logged_nil s : logged s [] = s.
Proof. destruct s. unfold logged. simpl. by rewrite app_nil_r. Qed.

(** X1.  A client identifier that matches no row: [fetch] resolves to null,
    reading [get] of it throws, and the error goes through
    [getThemedTemplate] and [renderThemedTemplate]; the client query is
    the only call made. *)
Theorem unknown_client_throws clientId page context s :
  truthy clientId = true ->
  client_of (world s) clientId = None ->
  let thrown := TypeError "Cannot read property 'get' of null" in
  fetchTemplate clientId page s
  = (Err thrown, logged s [QueryClient clientId]) /\
  getThemedTemplate clientId page context s
  = (Err thrown, logged s [QueryClient clientId]) /\
  renderThemedTemplate clientId page context s
  = (Err thrown, logged s [QueryClient clientId]).
Proof.
  intros Hc Hnone thrown.
  assert (Hfetch : fetchTemplate clientId page s
                   = (Err thrown, logged s [QueryClient clientId])).
  { unfold fetchTemplate, bind. rewrite (Hoek_assert_truthy _ _ _ Hc).
    unfold fetch_client, bind, log, read; simpl.
    unfold client_of in Hnone. by rewrite Hnone. }
  assert (Hget : getThemedTemplate clientId page context s
                 = (Err thrown, logged s [QueryClient clientId])).
  { by rewrite (getThemedTemplate_run _ _ _ _ Hc), Hfetch. }
  repeat split; [done..|].
  unfold renderThemedTemplate, bind. by rewrite Hget.
Qed.

(** X2.  Whatever its arguments, [fetchTemplate] makes no call but the client
    query and, after it, the template query: it reads no file and renders
    nothing. *)
Theorem fetchTemplate_queries_only clientId page s :
  exists evs,
    snd (fetchTemplate clientId page s) = logged s evs /\
    (evs = [] \/ evs = [QueryClient clientId] \/
     exists theme, evs = [QueryClient clientId; QueryTemplate theme page]).
Proof.
  destruct (truthy clientId) eqn:Hc.
  - destruct (client_of (world s) clientId) as [c|] eqn:Hfind.
    + rewrite (fetchTemplate_found _ page _ _ Hc Hfind).
      destruct (truthy_prim (theme_id c)); eexists; split; eauto.
    + exists [QueryClient clientId]. split; [|by auto].
      unfold fetchTemplate, bind. rewrite (Hoek_assert_truthy _ _ _ Hc).
      unfold fetch_client, bind, log, read; simpl.
      unfold client_of in Hfind. by rewrite Hfind.
  - exists []. split; [|by auto].
    unfold fetchTemplate, bind. rewrite (Hoek_assert_falsy _ _ _ Hc).
    simpl. by rewrite logged_nil.
Qed.

(** X3.  When the client's theme has a template for the page, the outcome of
    [getThemedTemplate] is that of the template's own [render], and the
    calls made are the two queries and that [render]: no default file is
    read, so it does not matter whether one exists. *)
Theorem custom_template_reads_no_file clientId page context s c t :
  truthy clientId = true ->
  client_of (world s) clientId = Some c ->
  has_theme c = true ->
  template_of (world s) (theme_id c) page = Some t ->
  let custom := {| attributes := t; layout := related_layout (world s) t |} in
  getThemedTemplate clientId page context s
  = (result_map (fun html => {| template := Some custom;
                                renderedTemplate := html |})
                (template_render custom page context),
     logged s [QueryClient clientId; QueryTemplate (theme_id c) page;
               CallTemplateRender custom page]).
Proof.
  intros Hc Hfind Hth Ht custom.
  rewrite (getThemedTemplate_run _ _ _ _ Hc).
  rewrite (fetchTemplate_found _ _ _ _ Hc Hfind).
  unfold has_theme in Hth. rewrite Hth, Ht. fold custom.
  unfold render_custom, bind, log, lift, logged; simpl.
  rewrite <- app_assoc. simpl.
  by destruct (template_render custom page context).
Qed.


(** X5.  A page that the layout table does not list, and that is not
    the name of a property that the table inherits as every object
    does, is given the layout file named [undefined]: without that file
    the call throws, with it that file is the layout. *)
Theorem unlisted_page_layout clientId page context s c :
  truthy clientId = true ->
  client_of (world s) clientId = Some c ->
  no_custom_template (world s) c page ->
  defaultLayouts !! page = None ->
  inherited_text page = None ->
  (files (world s) !! "./templates/layout/undefined" = None ->
   fst (getThemedTemplate clientId page context s)
   = Err (ENOENT "./templates/layout/undefined")) /\
  (forall layoutCode templateCode content,
     files (world s) !! "./templates/layout/undefined" = Some layoutCode ->
     files (world s) !! default_page_path page = Some templateCode ->
     handlebars_compile templateCode context = Ok content ->
     fst (getThemedTemplate clientId page context s)
     = result_map
         (fun html => {| template := None; renderedTemplate := html |})
         (handlebars_compile layoutCode
            (Object_assign (Object_assign [] context)
                           [("content", VStr content)]))).
Proof.
  intros Hc Hfind Hno Hpage Hown.
  destruct (fetchTemplate_none _ page _ _ Hc Hfind Hno) as [evs Hfetch].
  rewrite (getThemedTemplate_run _ _ _ _ Hc), Hfetch, render_default_run.
  change (world (logged s evs)) with (world s).
  unfold default_layout_path, default_layout_name. rewrite Hpage, Hown.
  change ("./templates/layout/" ++ "undefined")%string
    with "./templates/layout/undefined".
  split.
  - intros ->. reflexivity.
  - intros lc tc content -> -> ->.
    by destruct (handlebars_compile lc _).
Qed.

End ThemeEdges.

(* ===================================================================== *)
(** * Further properties of [expandDotPaths] *)
(* ===================================================================== *)

Section ExpandDotPathsEdges.
Import UserController.


Lemma keys_delete k (o : object) k' :
  k' ∈ keys (delete k o) -> k' <> k /\ k' ∈ keys o.
Proof.
  induction o as [|[k0 v0] o IH]; simpl.
  - intros Hin. by apply elem_of_nil in Hin.
  - destruct (String.eqb_spec k k0) as [->|Hne]; simpl.
    + intros Hin. destruct (IH Hin) as [Hk Hin']. split; [done|by right].
    + intros [->|Hin]%elem_of_cons; [split; [done|left]|].
      destruct (IH Hin) as [Hk Hin']. split; [done|by right].
Qed.








Lemma expand_fold_plain ks (o : object) :
  (forall k, k ∈ ks -> has_dot k = false) ->
  fold_left expand_key ks o = o.
Proof.
  induction ks as [|k0 ks IH]; intros Hks; simpl; [done|].
  rewrite expand_key_plain by (apply Hks; left).
  apply IH. intros k Hk. apply Hks. by right.
Qed.

(** X6.  An object none of whose keys has a dot comes back as it is. *)
Theorem expandDotPaths_without_dots (object : object) :
  (forall key, key ∈ keys object -> has_dot key = false) ->
  expandDotPaths object = object.
Proof. intros Hks. by apply expand_fold_plain. Qed.



End ExpandDotPathsEdges.

(* ===================================================================== *)
(** * The key of the stored picture *)
(* ===================================================================== *)

Section ReplaceOrigin.
Import Handlers.

Lemma has_double_slash_cons c s :
  has_double_slash (String c s)
  = (Ascii.eqb c "/" && starts_with_slash s) || has_double_slash s.
Proof. reflexivity. Qed.

Lemma match_here_needs_double_slash s :
  has_double_slash s = false -> match_here s = None.
Proof.
  destruct s as [|c1 [|c2 s]]; simpl; [done..|].
  destruct (Ascii.eqb c1 "/"), (Ascii.eqb c2 "/"); simpl; done.
Qed.

Lemma match_origin_needs_double_slash s :
  has_double_slash s = false -> match_origin s = None.
Proof.
  induction s as [|c s IH]; [done|]. intros Hs.
  pose proof (match_here_needs_double_slash _ Hs) as Hhere.
  cbn [match_origin]. rewrite Hhere.
  rewrite has_double_slash_cons in Hs. apply orb_false_iff in Hs as [_ Hs].
  rewrite (IH Hs). by destruct (line_break_at (String c s)).
Qed.

(** X20.  Without [//] there is nothing to remove. *)
Theorem replace_origin_without_double_slash s :
  has_double_slash s = false -> replace_origin s = s.
Proof.
  intros Hs. unfold replace_origin.
  by rewrite (match_origin_needs_double_slash _ Hs).
Qed.

Lemma match_host_host seen host path :
  all_chars not_slash host = true ->
  match_host seen (host ++ String "/" path)
  = if seen || negb (String.eqb host "") then Some path else None.
Proof.
  revert seen. induction host as [|c host IH]; intros seen Hhost; simpl.
  - destruct seen; reflexivity.
  - simpl in Hhost. apply andb_true_iff in Hhost as [Hc Hhost].
    unfold not_slash in Hc. apply negb_true_iff in Hc. rewrite Hc.
    rewrite (IH true Hhost). simpl. by rewrite orb_true_r.
Qed.

Lemma has_double_slash_after c host path :
  Ascii.eqb c "/" = false ->
  all_chars not_slash host = true ->
  has_double_slash (String "/" path) = false ->
  has_double_slash (String c (host ++ String "/" path)) = false.
Proof.
  revert c. induction host as [|c' host IH]; intros c Hc Hhost Hpath;
    rewrite has_double_slash_cons, Hc.
  - exact Hpath.
  - simpl in Hhost. apply andb_true_iff in Hhost as [Hc' Hhost].
    unfold not_slash in Hc'. apply negb_true_iff in Hc'.
    exact (IH c' Hc' Hhost Hpath).
Qed.

Lemma has_double_slash_host host path :
  all_chars not_slash host = true ->
  host <> "" ->
  has_double_slash (String "/" path) = false ->
  has_double_slash (String "/" (host ++ String "/" path)) = false.
Proof.
  intros Hhost Hne Hpath.
  destruct host as [|c host]; [done|]. clear Hne.
  simpl in Hhost. apply andb_true_iff in Hhost as [Hc Hhost].
  unfold not_slash in Hc. apply negb_true_iff in Hc.
  rewrite has_double_slash_cons.
  pose proof (has_double_slash_after c host path Hc Hhost Hpath) as Hafter.
  change (starts_with_slash (String c host ++ String "/" path))
    with (Ascii.eqb c "/").
  rewrite Hc, andb_false_r. exact Hafter.
Qed.

Lemma match_origin_cons c s :
  match_origin (String c s)
  = match (if line_break_at (String c s) then None else match_origin s) with
    | Some rest => Some rest
    | None => match_here (String c s)
    end.
Proof. reflexivity. Qed.

Lemma match_origin_skip c s rest :
  line_break_at (String c s) = false ->
  match_origin s = Some rest -> match_origin (String c s) = Some rest.
Proof. intros Hc Hs. by rewrite match_origin_cons, Hc, Hs. Qed.

Lemma match_origin_at_host host path :
  all_chars not_slash host = true ->
  host <> "" ->
  has_double_slash (String "/" path) = false ->
  match_origin (String "/" (String "/" (host ++ String "/" path))) = Some path.
Proof.
  intros Hhost Hne Hpath.
  rewrite match_origin_cons.
  rewrite (match_origin_needs_double_slash _
             (has_double_slash_host _ _ Hhost Hne Hpath)).
  unfold match_here. simpl line_break_at. simpl andb. cbv iota.
  rewrite (match_host_host false _ _ Hhost).
  destruct (String.eqb_spec host ""); [contradiction|done].
Qed.

(** A slash after the scheme starts no line terminator with the end of
    the scheme. *)
Lemma line_break_before_slash c scheme rest :
  line_break_at (String c scheme) = false ->
  line_break_at (String c (scheme ++ String "/" rest)) = false.
Proof.
  intros Hc. destruct scheme as [|c2 [|c3 scheme]]; [| |exact Hc].
  - by destruct rest.
  - change ((Ascii.eqb c "010" || Ascii.eqb c "013"
             || Ascii.eqb c "226" && false) = false) in Hc.
    change ((Ascii.eqb c "010" || Ascii.eqb c "013"
             || Ascii.eqb c "226" && (Ascii.eqb c2 "128" && false)) = false).
    by rewrite andb_false_r.
Qed.

(** X19.  From an address [<scheme>//<host>/<path>] the path is what is
    left, the key under which the picture is stored: the scheme holds no
    line terminator (LF, CR, U+2028, U+2029), the host is not empty and
    has no slash, and the path has no double slash and does not start
    with a slash. *)
Theorem replace_origin_url scheme host path :
  no_line_break scheme = true ->
  all_chars not_slash host = true ->
  host <> "" ->
  has_double_slash (String "/" path) = false ->
  replace_origin (scheme ++ "//" ++ host ++ String "/" path) = path.
Proof.
  intros Hscheme Hhost Hne Hpath. unfold replace_origin.
  assert (Hm : match_origin (scheme ++ "//" ++ host ++ String "/" path)
               = Some path); [|by rewrite Hm].
  induction scheme as [|c scheme IH].
  - exact (match_origin_at_host host path Hhost Hne Hpath).
  - cbn [no_line_break] in Hscheme.
    apply andb_true_iff in Hscheme as [Hc Hscheme].
    apply negb_true_iff in Hc.
    apply (line_break_before_slash c scheme
             (String "/" (host ++ String "/" path))) in Hc.
    exact (match_origin_skip c _ path Hc (IH Hscheme)).
Qed.

(** A line separator in the scheme: the address is left as it is. *)
Example replace_origin_line_separator :
  replace_origin
    (String "226" (String "128" (String "168" "//cdn.example.org/a.png")))
  = String "226" (String "128" (String "168" "//cdn.example.org/a.png")).
Proof. reflexivity. Qed.

End ReplaceOrigin.

(* ===================================================================== *)
(** * Properties of the other handlers *)
(* ===================================================================== *)

Section ChangePasswordOrder.
Import UserController.
Context {S : Type} `{Services S}.

(** X9.  [changePassword] stops at the first collaborator that throws,
    with that error and without calling [render]: at the comparison; at
    the hashing, before any update; at the update, which is given the
    hash that [encryptPassword] returned for the new password, before
    any email; at the email, which is sent only once the update has
    succeeded. *)
Theorem changePassword_stops_at_failure request user client
    (render : value -> M S unit) (s : State S) :
  let current := get "current" (payload request) in
  let password := get "password" (payload request) in
  let compared := ComparePasswords current user in
  let hashed := EncryptPassword password in
  let updated h := Update (get "id" user) [("password", h)] in
  let mailed := SendPasswordChangeEmail (get "email" user) client in
  (forall e sv1,
     comparePasswords current user (services s) = (Err e, sv1) ->
     changePassword request user client render s
     = (Err e, {| services := sv1; calls := calls s ++ [compared] |})) /\
  (forall isAuthenticated sv1,
     comparePasswords current user (services s) = (Ok isAuthenticated, sv1) ->
     truthy isAuthenticated = true ->
     (forall e sv2,
        encryptPassword password sv1 = (Err e, sv2) ->
        changePassword request user client render s
        = (Err e, {| services := sv2;
                     calls := calls s ++ [compared; hashed] |})) /\
     (forall h sv2,
        encryptPassword password sv1 = (Ok h, sv2) ->
        (forall e sv3,
           update (get "id" user) [("password", h)] sv2 = (Err e, sv3) ->
           changePassword request user client render s
           = (Err e, {| services := sv3;
                        calls := calls s ++ [compared; hashed; updated h] |}))
        /\
        (forall sv3 e sv4,
           update (get "id" user) [("password", h)] sv2 = (Ok tt, sv3) ->
           sendPasswordChangeEmail (get "email" user) client sv3
           = (Err e, sv4) ->
           changePassword request user client render s
           = (Err e, {| services := sv4;
                        calls := calls s ++ [compared; hashed; updated h;
                                             mailed] |})))).
Proof.
  intros current password compared hashed updated mailed. split.
  - intros e sv1 Hcmp.
    unfold changePassword, bind, invoke. fold current password. simpl.
    by rewrite Hcmp.
  - intros b sv1 Hcmp Hb. split.
    + intros e sv2 Henc.
      unfold changePassword, bind, invoke. fold current password. simpl.
      rewrite Hcmp, Hb. simpl. rewrite Henc. simpl.
      by rewrite <- app_assoc.
    + intros h sv2 Henc. split.
      * intros e sv3 Hupd.
        unfold changePassword, bind, invoke. fold current password. simpl.
        rewrite Hcmp, Hb. simpl. rewrite Henc. simpl. rewrite Hupd. simpl.
        by rewrite <- !app_assoc.
      * intros sv3 e sv4 Hupd Hsend.
        unfold changePassword, bind, invoke. fold current password. simpl.
        rewrite Hcmp, Hb. simpl. rewrite Henc. simpl. rewrite Hupd. simpl.
        rewrite Hsend. simpl.
        by rewrite <- !app_assoc.
Qed.

End ChangePasswordOrder.

Section HandlerProperties.
Import Handlers.
Context `{ThemeService.Deps} {S : Type} `{Platform S}.

Lemma invoke_ok {A} c (m : M S A) (s : State S) a sv :
  m (platform s) = (Ok a, sv) -> invoke c m s = (Ok a, after s sv [c]).
Proof. intros Hm. unfold invoke. by rewrite Hm. Qed.

Lemma invoke_err {A} c (m : M S A) (s : State S) e sv :
  m (platform s) = (Err e, sv) -> invoke c m s = (Err e, after s sv [c]).
Proof. intros Hm. unfold invoke. by rewrite Hm. Qed.

Lemma invoke_after {A} c (m : M S A) (s : State S) sv cs :
  invoke c m (after s sv cs)
  = (let (r, sv') := m sv in (r, after s sv' (cs ++ [c]))).
Proof.
  unfold invoke, after. simpl. destruct (m sv) as [r sv'].
  by rewrite <- app_assoc.
Qed.

Lemma after_nil (s : State S) : after s (platform s) [] = s.
Proof. destruct s. unfold after. simpl. by rewrite app_nil_r. Qed.


(** X11.  Without a session cookie [logout] throws not-found: the session
    service is not called and nothing is redirected.  With one, the
    session is invalidated and then the browser is redirected to the
    post-logout address; when the invalidation throws there is no
    redirection. *)
Theorem logout_outcomes request (s : State S) :
  let sessionId := get "_session" (state request) in
  let uri := get "post_logout_redirect_uri" (query request) in
  (truthy sessionId = false ->
   logout request s
   = (Err Boom_notFound,
      after s (platform s) [ConsoleError "Session id cookie not present"])) /\
  (forall e sv1,
     truthy sessionId = true ->
     userService_invalidateSession sessionId (platform s) = (Err e, sv1) ->
     logout request s = (Err e, after s sv1 [InvalidateSession sessionId])) /\
  (forall sv1,
     truthy sessionId = true ->
     userService_invalidateSession sessionId (platform s) = (Ok tt, sv1) ->
     logout request s
     = (let (r, sv2) := reply_redirect uri sv1 in
        (r, after s sv2 [InvalidateSession sessionId; ReplyRedirect uri]))).
Proof.
  intros sessionId uri. unfold logout. fold sessionId uri.
  repeat split.
  - intros ->. reflexivity.
  - intros e sv1 -> Hinv. simpl. unfold bind.
    by rewrite (invoke_err _ _ _ _ _ Hinv).
  - intros sv1 -> Hinv. simpl. unfold bind.
    by rewrite (invoke_ok _ _ _ _ _ Hinv), invoke_after.
Qed.

End HandlerProperties.

Section ThemedHandlers.
Import Handlers.
Context `{ThemeService.Deps} {S : Type} `{Platform S}.

Lemma reply_themed_run request page viewContext (s : State S) :
  reply_themed request page viewContext s
  = match ThemeService.renderThemedTemplate
            (get "client_id" (query request)) page viewContext (theme s) with
    | (Ok template, t) =>
        if truthy (VStr template)
        then invoke (Reply (Html template)) (reply (Html template))
                    (with_theme s t)
        else invoke (ReplyView page viewContext) (reply_view page viewContext)
                    (with_theme s t)
    | (Err e, t) => (Err e, with_theme s t)
    end.
Proof.
  unfold reply_themed, bind, themed, with_theme.
  destruct (ThemeService.renderThemedTemplate _ page viewContext (theme s))
    as [[template|e] t]; [|done].
  by destruct (truthy (VStr template)).
Qed.

(** The themed reply, a thrown error being caught and handed to [reply]:
    its first call is the answer, and no call is made but to reply. *)
Lemma caught_reply_themed request page viewContext (s : State S) :
  exists rest,
    calls (snd (catch (reply_themed request page viewContext)
                      (fun e => invoke (Reply (Failure e)) (reply (Failure e)))
                      s))
    = calls s ++ answer request page viewContext (theme s) :: rest.
Proof.
  unfold catch, answer. rewrite reply_themed_run.
  destruct (ThemeService.renderThemedTemplate _ page viewContext (theme s))
    as [[template|e] t].
  - destruct (truthy (VStr template)); unfold invoke; simpl.
    + destruct (reply (Html template) (platform s)) as [[[]|e] sv]; simpl.
      * by exists [].
      * destruct (reply (Failure e) sv) as [r sv']; simpl.
        exists [Reply (Failure e)]. by rewrite <- app_assoc.
    + destruct (reply_view page viewContext (platform s)) as [[[]|e] sv]; simpl.
      * by exists [].
      * destruct (reply (Failure e) sv) as [r sv']; simpl.
        exists [Reply (Failure e)]. by rewrite <- app_assoc.
  - unfold invoke; simpl.
    destruct (reply (Failure e) (platform s)) as [r sv]. simpl. by exists [].
Qed.

(** X12.  [postForgotPasswordForm] gives the same first answer, rendered from
    the same theme data, whether or not the address belongs to a user:
    for an unknown address it follows the lookup directly, for a known
    one it follows the creation of the token and the email.  In both
    cases the handler itself returns. *)
Theorem forgot_password_same_answer request1 request2 (s : State S)
    account token sv1 sv2 sv3 sv4 :
  let email1 := get "email" (payload request1) in
  let email2 := get "email" (payload request2) in
  let shown :=
    answer request1 "forgot-password-success"
           [("title", VStr "Forgot Password")] (theme s) in
  query request1 = query request2 ->
  userService_findByEmailForOidc email1 (platform s) = (Ok None, sv1) ->
  userService_findByEmailForOidc email2 (platform s) = (Ok (Some account), sv2) ->
  userService_createPasswordResetToken (accountId account) sv2 = (Ok token, sv3) ->
  truthy token = true ->
  userService_sendForgotPasswordEmail email2 (query request2) token sv3
  = (Ok tt, sv4) ->
  exists rest1 rest2,
    postForgotPasswordForm request1 s
    = (Ok tt, snd (postForgotPasswordForm request1 s)) /\
    postForgotPasswordForm request2 s
    = (Ok tt, snd (postForgotPasswordForm request2 s)) /\
    calls (snd (postForgotPasswordForm request1 s))
    = calls s ++ [FindByEmailForOidc email1; shown] ++ rest1 /\
    calls (snd (postForgotPasswordForm request2 s))
    = calls s ++ [FindByEmailForOidc email2;
                  CreatePasswordResetToken (accountId account);
                  SendForgotPasswordEmail email2 (query request2) token;
                  shown] ++ rest2.
Proof.
  intros email1 email2 shown Hquery Hfind1 Hfind2 Htoken Htruthy Hsend.
  set (handler := fun e => invoke (S:=S) (Reply (Failure e)) (reply (Failure e))).
  assert (Hrun1 : snd (postForgotPasswordForm request1 s)
                  = snd (catch (reply_themed request1 "forgot-password-success"
                                  [("title", VStr "Forgot Password")])
                               handler
                               (after s sv1 [FindByEmailForOidc email1]))).
  { unfold postForgotPasswordForm, detached, catch, bind. fold email1.
    rewrite (invoke_ok _ _ _ _ _ Hfind1). unfold ret. simpl.
    destruct (reply_themed request1 _ _ _) as [[[]|e] s']; [done|].
    unfold handler. by destruct (invoke _ _ s'). }
  assert (Hrun2 : snd (postForgotPasswordForm request2 s)
                  = snd (catch (reply_themed request2 "forgot-password-success"
                                  [("title", VStr "Forgot Password")])
                               handler
                               (after s sv4
                                  [FindByEmailForOidc email2;
                                   CreatePasswordResetToken (accountId account);
                                   SendForgotPasswordEmail email2
                                     (query request2) token]))).
  { unfold postForgotPasswordForm, detached, catch, bind. fold email2.
    rewrite (invoke_ok _ _ _ _ _ Hfind2), invoke_after, Htoken, Htruthy.
    rewrite invoke_after, Hsend. simpl.
    destruct (reply_themed request2 _ _ _) as [[[]|e] s']; [done|].
    unfold handler. by destruct (invoke _ _ s'). }
  destruct (caught_reply_themed request1 "forgot-password-success"
              [("title", VStr "Forgot Password")]
              (after s sv1 [FindByEmailForOidc email1])) as [rest1 Hrest1].
  destruct (caught_reply_themed request2 "forgot-password-success"
              [("title", VStr "Forgot Password")]
              (after s sv4
                 [FindByEmailForOidc email2;
                  CreatePasswordResetToken (accountId account);
                  SendForgotPasswordEmail email2 (query request2) token]))
    as [rest2 Hrest2].
  exists rest1, rest2. repeat split.
  - unfold postForgotPasswordForm, detached. by destruct (catch _ _ s).
  - unfold postForgotPasswordForm, detached. by destruct (catch _ _ s).
  - rewrite Hrun1. fold handler in Hrest1. rewrite Hrest1.
    unfold after. simpl. by rewrite <- app_assoc.
  - rewrite Hrun2. fold handler in Hrest2. rewrite Hrest2.
    unfold after, answer. simpl. rewrite <- Hquery.
    by rewrite <- app_assoc.
Qed.

End ThemedHandlers.

Section FormHandlers.
Import Handlers.
Context `{ThemeService.Deps} {S : Type} `{Platform S}.

Lemma renderThemedTemplate_without_client clientId page context t :
  truthy clientId = false ->
  ThemeService.renderThemedTemplate clientId page context t
  = (Err (AssertionError
            "clientId is required in ThemeService::getThemedTemplate"), t).
Proof.
  intros Hc.
  unfold ThemeService.renderThemedTemplate, ThemeService.getThemedTemplate, bind.
  by rewrite (Hoek_assert_falsy _ _ _ Hc).
Qed.

Lemma with_theme_same (s : State S) : with_theme s (theme s) = s.
Proof. by destruct s. Qed.

(** X13.  A request without [client_id] in its query: the handlers that show
    the forgot-password and reset-password forms throw the assertion
    error of the theme service and answer nothing, whereas
    [postForgotPasswordForm], for an address of no user, hands that error
    to [reply] and returns. *)
Theorem forms_without_client_id request error title (s : State S) sv1 :
  let thrown :=
    AssertionError "clientId is required in ThemeService::getThemedTemplate" in
  let email := get "email" (payload request) in
  truthy (get "client_id" (query request)) = false ->
  userService_findByEmailForOidc email (platform s) = (Ok None, sv1) ->
  getForgotPasswordForm request error s = (Err thrown, s) /\
  getResetPasswordForm title request error s = (Err thrown, s) /\
  postForgotPasswordForm request s
  = (Ok tt,
     after s (snd (reply (Failure thrown) sv1))
           [FindByEmailForOidc email; Reply (Failure thrown)]).
Proof.
  intros thrown email Hc Hfind. repeat split.
  - unfold getForgotPasswordForm. rewrite reply_themed_run.
    rewrite (renderThemedTemplate_without_client _ _ _ _ Hc).
    rewrite with_theme_same. reflexivity.
  - unfold getResetPasswordForm. rewrite reply_themed_run.
    rewrite (renderThemedTemplate_without_client _ _ _ _ Hc).
    rewrite with_theme_same. reflexivity.
  - unfold postForgotPasswordForm, detached, catch, bind. fold email.
    rewrite (invoke_ok _ _ _ _ _ Hfind). unfold ret. simpl.
    rewrite reply_themed_run.
    rewrite (renderThemedTemplate_without_client _ _ _ _ Hc).
    unfold invoke, with_theme, after. simpl. subst thrown.
    destruct (reply (Failure _) sv1) as [r sv2]. simpl.
    by rewrite <- app_assoc.
Qed.

(** What [renderThemedTemplate] returns for a client without a custom
    template whose default files exist and render. *)
Lemma renderThemedTemplate_default clientId page context t c
    layoutCode templateCode content html :
  truthy clientId = true ->
  ThemeService.client_of (ThemeService.world t) clientId = Some c ->
  ThemeService.no_custom_template (ThemeService.world t) c page ->
  ThemeService.files (ThemeService.world t)
    !! ThemeService.default_layout_path page = Some layoutCode ->
  ThemeService.files (ThemeService.world t)
    !! ThemeService.default_page_path page = Some templateCode ->
  ThemeService.handlebars_compile templateCode context = Ok content ->
  ThemeService.handlebars_compile layoutCode
    (Object_assign (Object_assign [] context) [("content", VStr content)])
  = Ok html ->
  exists evs,
    ThemeService.renderThemedTemplate clientId page context t
    = (Ok html, ThemeService.logged t evs).
Proof.
  intros Hc Hfind Hno Hl Ht Hpage Hlayout.
  destruct (fetchTemplate_none _ page _ _ Hc Hfind Hno) as [evs Hfetch].
  exists (evs ++ [ThemeService.ReadFile (ThemeService.default_layout_path page);
                  ThemeService.ReadFile (ThemeService.default_page_path page)]).
  unfold ThemeService.renderThemedTemplate, bind.
  rewrite (getThemedTemplate_run _ _ _ _ Hc), Hfetch, render_default_run.
  change (ThemeService.world (ThemeService.logged t evs))
    with (ThemeService.world t).
  rewrite Hl, Ht, Hpage, Hlayout. unfold ret. by rewrite logged_logged.
Qed.

(** X14.  For a client without a custom template, [getForgotPasswordForm]
    replies the default page rendered inside its default layout with the
    view context of the form; when that HTML is the empty string it
    replies the plain view instead.  The theme data are left as they
    were. *)
Theorem getForgotPasswordForm_default_page request error (s : State S) c
    layoutCode templateCode content html :
  let clientId := get "client_id" (query request) in
  let viewContext := views_forgotPassword request error in
  let w := ThemeService.world (theme s) in
  truthy clientId = true ->
  ThemeService.client_of w clientId = Some c ->
  ThemeService.no_custom_template w c "forgot-password" ->
  ThemeService.files w !! ThemeService.default_layout_path "forgot-password"
  = Some layoutCode ->
  ThemeService.files w !! ThemeService.default_page_path "forgot-password"
  = Some templateCode ->
  ThemeService.handlebars_compile templateCode viewContext = Ok content ->
  ThemeService.handlebars_compile layoutCode
    (Object_assign (Object_assign [] viewContext) [("content", VStr content)])
  = Ok html ->
  exists t,
    ThemeService.world t = w /\
    getForgotPasswordForm request error s
    = if String.eqb html ""
      then invoke (ReplyView "forgot-password" viewContext)
                  (reply_view "forgot-password" viewContext) (with_theme s t)
      else invoke (Reply (Html html)) (reply (Html html)) (with_theme s t).
Proof.
  intros clientId viewContext w Hc Hfind Hno Hl Ht Hpage Hlayout.
  destruct (renderThemedTemplate_default clientId "forgot-password" viewContext
              (theme s) c layoutCode templateCode content html
              Hc Hfind Hno Hl Ht Hpage Hlayout) as [evs Hrender].
  exists (ThemeService.logged (theme s) evs). split; [done|].
  unfold getForgotPasswordForm. fold viewContext.
  rewrite reply_themed_run. fold clientId. rewrite Hrender.
  simpl. by destruct (String.eqb html "").
Qed.



(** X16.  With a token that belongs to a user, the user is updated with the
    hash of the new password and with the profile it had, in which
    [email_verified] is now true.  The token is destroyed only after the
    update: when the update throws, the token is kept, the error is
    thrown on and nothing is answered.  After both, the themed success
    page is the answer. *)
Theorem reset_password_valid_token title request (s : State S)
    user sv1 hashed sv2 :
  let token := get "token" (query request) in
  let password := get "password" (payload request) in
  let verified := assign "email_verified" (VPrim (PBool true)) (profile user) in
  let patch := [("password", hashed); ("profile", VObj false verified)] in
  userService_findByPasswordToken token (platform s) = (Ok (Some user), sv1) ->
  userService_encryptPassword password sv1 = (Ok hashed, sv2) ->
  lookup "email_verified" verified = Some (VPrim (PBool true)) /\
  (forall k, k <> "email_verified" ->
             lookup k verified = lookup k (profile user)) /\
  (forall e sv3,
     userService_update (id user) patch sv2 = (Err e, sv3) ->
     postResetPasswordForm title request s
     = (Err e, after s sv3 [FindByPasswordToken token; EncryptPassword password;
                            Update (id user) patch])) /\
  (forall sv3 sv4,
     userService_update (id user) patch sv2 = (Ok tt, sv3) ->
     userService_destroyPasswordToken token sv3 = (Ok tt, sv4) ->
     postResetPasswordForm title request s
     = reply_themed request "reset-password-success"
         (views_resetPasswordSuccess title request)
         (after s sv4 [FindByPasswordToken token; EncryptPassword password;
                       Update (id user) patch; DestroyPasswordToken token])).
Proof.
  intros token password verified patch Hfind Henc.
  split; [apply lookup_assign_same|].
  split; [intros k Hk; by apply lookup_assign_other|].
  split.
  - intros e sv3 Hupd.
    unfold postResetPasswordForm, bind. fold token password.
    rewrite (invoke_ok _ _ _ _ _ Hfind), invoke_after, Henc.
    fold verified patch. by rewrite invoke_after, Hupd.
  - intros sv3 sv4 Hupd Hdestroy.
    unfold postResetPasswordForm, bind. fold token password.
    rewrite (invoke_ok _ _ _ _ _ Hfind), invoke_after, Henc.
    fold verified patch. by rewrite invoke_after, Hupd, invoke_after, Hdestroy.
Qed.

End FormHandlers.

Section UpdateProfile.
Import Handlers.
Context `{ThemeService.Deps} {S : Type} `{Platform S}.

Lemma Object_assign_lookup_absent k (target source : object) :
  k ∉ keys source -> lookup k (Object_assign target source) = lookup k target.
Proof.
  revert target. induction source as [|[k0 v0] source IH]; intros target Hk;
    [done|].
  apply not_elem_of_cons in Hk as [Hne Hk]. simpl in Hne.
  unfold Object_assign in *. simpl. rewrite (IH _ Hk).
  by apply lookup_assign_other.
Qed.

(** X17.  [updateProfile] throws before it calls anything when the
    expanded payload has no [picture], and also when the picture is a
    JPEG or a PNG: the constant [uuid] is read in its own initialiser.
    In both cases the profile is not updated and nothing is redirected.
    The keys of the payload are expanded as lodash does, brackets
    included; no key leads [set] to an inherited property. *)
Theorem updateProfile_throws_first request user (s : State S) :
  UserController.own_walks (payload request) = true ->
  let payload := UserController.expandDotPaths (payload request) in
  (lookup "picture" payload = None ->
   updateProfile request user s
   = (Err (TypeError "Cannot read property 'hapi' of undefined"), s)) /\
  (forall hapi headers mime,
     member "hapi" (get "picture" payload) = Ok hapi ->
     member "headers" hapi = Ok headers ->
     member "content-type" headers = Ok (VStr mime) ->
     mime = "image/jpeg" \/ mime = "image/png" ->
     updateProfile request user s = (Err (ReferenceError "uuid"), s)).
Proof.
  intros _ payload. split.
  - intros Hnone. unfold updateProfile, bind, lift. fold payload.
    unfold get. by rewrite Hnone.
  - intros hapi headers mime Hhapi Hheaders Hmime Hkind.
    unfold updateProfile, bind, lift. fold payload.
    rewrite Hhapi, Hheaders, Hmime.
    by destruct Hkind as [-> | ->].
Qed.

(** X18.  When the picture is of any other type, the user is updated with the
    profile it had, overridden by the fields of the payload other than
    [picture]: the profile keeps its picture.  When the update throws,
    no image is deleted.  When it succeeds and the profile had a
    picture, the stored image of that picture is deleted all the same,
    under the key left of its address, and then the browser is
    redirected.  The keys of the payload are expanded as lodash does,
    brackets included; no key leads [set] to an inherited property, and
    none has an array index for a segment. *)
Theorem updateProfile_other_type request user (s : State S)
    hapi headers pictureMIME :
  UserController.own_walks (payload request) = true ->
  UserController.no_index (payload request) = true ->
  let payload := UserController.expandDotPaths (payload request) in
  let kept := Object_assign (profile user) (delete "picture" payload) in
  let patch := [("profile", VObj false kept)] in
  let uri := get "redirect_uri" (query request) in
  member "hapi" (get "picture" payload) = Ok hapi ->
  member "headers" hapi = Ok headers ->
  member "content-type" headers = Ok pictureMIME ->
  is_string pictureMIME "image/jpeg" = false ->
  is_string pictureMIME "image/png" = false ->
  lookup "picture" kept = lookup "picture" (profile user) /\
  (forall e sv1,
     userService_update (id user) patch (platform s) = (Err e, sv1) ->
     updateProfile request user s
     = (Err e, after s sv1 [Update (id user) patch])) /\
  (forall old sv1 sv2,
     get "picture" (profile user) = VStr old ->
     old <> "" ->
     userService_update (id user) patch (platform s) = (Ok tt, sv1) ->
     imageService_deleteImage (VStr (replace_origin old)) sv1 = (Ok tt, sv2) ->
     updateProfile request user s
     = (let (r, sv3) := reply_redirect uri sv2 in
        (r, after s sv3 [Update (id user) patch;
                         DeleteImage (VStr (replace_origin old));
                         ReplyRedirect uri]))) /\
  (forall sv1,
     truthy (get "picture" (profile user)) = false ->
     userService_update (id user) patch (platform s) = (Ok tt, sv1) ->
     updateProfile request user s
     = (let (r, sv2) := reply_redirect uri sv1 in
        (r, after s sv2 [Update (id user) patch; ReplyRedirect uri]))).
Proof.
  intros _ _ payload kept patch uri Hhapi Hheaders Hmime Hjpeg Hpng.
  split.
  { apply Object_assign_lookup_absent. intros Hin.
    by apply keys_delete in Hin as [Hne _]. }
  assert (Hstart :
            updateProfile request user s
            = bind (invoke (Update (id user) patch)
                           (userService_update (id user) patch))
                   (fun _ =>
                      bind (if truthy (get "picture" (profile user))
                            then bind (lift (call_replace_origin
                                               (get "picture" (profile user))))
                                      (fun key =>
                                         invoke (DeleteImage key)
                                                (imageService_deleteImage key))
                            else ret tt)
                           (fun _ => invoke (ReplyRedirect uri)
                                            (reply_redirect uri)))
                   s).
  { unfold updateProfile. fold payload uri.
    unfold bind at 1, lift at 1. rewrite Hhapi.
    unfold bind at 1, lift at 1. rewrite Hheaders.
    unfold bind at 1, lift at 1. rewrite Hmime, Hjpeg, Hpng.
    reflexivity. }
  rewrite Hstart. clear Hstart.
  repeat split.
  - intros e sv1 Hupd. unfold bind at 1.
    by rewrite (invoke_err _ _ _ _ _ Hupd).
  - intros old sv1 sv2 Hold Hne Hupd Hdel. unfold bind at 1.
    rewrite (invoke_ok _ _ _ _ _ Hupd), Hold.
    assert (Ht : truthy (VStr old) = true).
    { simpl. by destruct (String.eqb_spec old ""). }
    rewrite Ht. unfold bind, lift. simpl.
    by rewrite invoke_after, Hdel, invoke_after.
  - intros sv1 Hfalsy Hupd. unfold bind at 1.
    rewrite (invoke_ok _ _ _ _ _ Hupd), Hfalsy.
    unfold bind, ret. by rewrite invoke_after.
Qed.

End UpdateProfile.

(* ===================================================================== *)
(** * The further properties on the example data *)
(* ===================================================================== *)

Section FurtherOnExamples.
Import ThemeService Examples.

Lemma unknown_client_throws_witness :
  fst (renderThemedTemplate (VStr "nobody") "forgot-password" ctx0 (initial w0))
  = Err (TypeError "Cannot read property 'get' of null") /\
  io (snd (renderThemedTemplate (VStr "nobody") "forgot-password" ctx0
             (initial w0)))
  = [QueryClient (VStr "nobody")].
Proof.
  rewrite (proj2 (proj2 (@unknown_client_throws deps (VStr "nobody")
                           "forgot-password" ctx0 (initial w0)
                           eq_refl eq_refl))).
  split; reflexivity.
Defined.

Lemma custom_template_reads_no_file_witness :
  getThemedTemplate (VStr "c2") "forgot-password" ctx0 (initial w0)
  = (Ok {| template := Some acme_template;
           renderedTemplate :=
             "<html>acme</html>[Forgot Password|<p>acme</p>]" |},
     logged (initial w0)
       [QueryClient (VStr "c2"); QueryTemplate (PNum 7) "forgot-password";
        CallTemplateRender acme_template "forgot-password"]).
Proof.
  exact (@custom_template_reads_no_file deps (VStr "c2") "forgot-password" ctx0
           (initial w0) c2 acme_forgot eq_refl eq_refl eq_refl eq_refl).
Defined.


Lemma unlisted_page_layout_witness :
  fst (getThemedTemplate (VStr "c1") "forgot-password-success" ctx0 (initial w0))
  = Err (ENOENT "./templates/layout/undefined").
Proof.
  apply (@unlisted_page_layout deps (VStr "c1") "forgot-password-success" ctx0
           (initial w0) c1 eq_refl eq_refl (or_introl eq_refl) eq_refl eq_refl).
  reflexivity.
Defined.

(** A page named as something the layout table inherits: the layout is
    looked for under the text of the inherited value. *)
Example inherited_page_layout :
  fst (getThemedTemplate (VStr "c1") "constructor" ctx0 (initial w0))
  = Err (ENOENT "./templates/layout/function Object() { [native code] }").
Proof. reflexivity. Qed.

End FurtherOnExamples.

Section FurtherOnPayloads.
Import UserController Handlers.

Lemma expandDotPaths_without_dots_witness :
  expandDotPaths [("name", VStr "Alice"); ("city", VStr "Oslo")]
  = [("name", VStr "Alice"); ("city", VStr "Oslo")].
Proof.
  apply expandDotPaths_without_dots.
  intros key Hkey. simpl in Hkey.
  repeat (apply elem_of_cons in Hkey as [->|Hkey]; [reflexivity|]).
  by apply elem_of_nil in Hkey.
Defined.



Lemma replace_origin_without_double_slash_witness :
  replace_origin "pictures/ab/bob.png" = "pictures/ab/bob.png".
Proof. apply replace_origin_without_double_slash. reflexivity. Defined.

Lemma replace_origin_url_witness :
  replace_origin "https://cdn.example.org/pictures/ab/bob.png"
  = "pictures/ab/bob.png".
Proof.
  apply (replace_origin_url "https:" "cdn.example.org" "pictures/ab/bob.png");
    [reflexivity | reflexivity | discriminate | reflexivity].
Defined.

End FurtherOnPayloads.

Section FurtherOnPasswords.
Import UserController Examples.

(** The user is not in the table: the update throws, no email is sent
    and nothing is rendered. *)
Lemma changePassword_stops_at_failure_witness :
  changePassword (change_to_new "old") stranger (VStr "client") toy_render
    {| services := backend0; calls := [] |}
  = (Err (ServiceError "no such user"),
     {| services := backend0;
        calls := [ComparePasswords (VStr "old") stranger;
                  EncryptPassword (VStr "new");
                  Update (VStr "u9") [("password", VStr "#new")]] |}).
Proof.
  exact (proj1 (proj2 (proj2
           (@changePassword_stops_at_failure Backend toy_services
              (change_to_new "old") stranger (VStr "client") toy_render
              {| services := backend0; calls := [] |})
           (VPrim (PBool true)) backend0 eq_refl eq_refl)
           (VStr "#new") backend0 eq_refl)
           (ServiceError "no such user") backend0 eq_refl).
Defined.

End FurtherOnPasswords.

Section FurtherOnHandlers.
Import Handlers HandlerExamples.


Lemma logout_outcomes_witness :
  logout (anonymous_request []) start
  = (Err Boom_notFound,
     after start site0 [ConsoleError "Session id cookie not present"]) /\
  logout (request_of []) start
  = (Ok tt,
     after start site0 [InvalidateSession (VStr "sid");
                        ReplyRedirect (VStr "/bye")]).
Proof.
  split.
  - exact (proj1 (@logout_outcomes (list string) toy_platform
                    (anonymous_request []) start) eq_refl).
  - exact (proj2 (proj2 (@logout_outcomes (list string) toy_platform
                           (request_of []) start))
                 site0 eq_refl eq_refl).
Defined.

Lemma forgot_password_same_answer_witness :
  exists rest1 rest2,
    postForgotPasswordForm (request_of [("email", VStr "nobody@example.org")])
                           start
    = (Ok tt,
       snd (postForgotPasswordForm
              (request_of [("email", VStr "nobody@example.org")]) start)) /\
    postForgotPasswordForm (request_of [("email", VStr "alice@example.org")])
                           start
    = (Ok tt,
       snd (postForgotPasswordForm
              (request_of [("email", VStr "alice@example.org")]) start)) /\
    calls (snd (postForgotPasswordForm
                  (request_of [("email", VStr "nobody@example.org")]) start))
    = [] ++ [FindByEmailForOidc (VStr "nobody@example.org");
             Reply (Failure (ENOENT "./templates/layout/undefined"))] ++ rest1 /\
    calls (snd (postForgotPasswordForm
                  (request_of [("email", VStr "alice@example.org")]) start))
    = [] ++ [FindByEmailForOidc (VStr "alice@example.org");
             CreatePasswordResetToken (VStr "alice@example.org");
             SendForgotPasswordEmail (VStr "alice@example.org")
               (query (request_of [])) (VStr "tok");
             Reply (Failure (ENOENT "./templates/layout/undefined"))] ++ rest2.
Proof.
  exact (@forgot_password_same_answer Examples.deps (list string) toy_platform
           (request_of [("email", VStr "nobody@example.org")])
           (request_of [("email", VStr "alice@example.org")])
           start {| accountId := VStr "alice@example.org" |} (VStr "tok")
           site0 site0 site0 site0
           eq_refl eq_refl eq_refl eq_refl eq_refl eq_refl).
Defined.

Lemma forms_without_client_id_witness :
  getForgotPasswordForm (anonymous_request [("email", VStr "nobody@example.org")])
                        undefined start
  = (Err (AssertionError
            "clientId is required in ThemeService::getThemedTemplate"),
     start) /\
  postForgotPasswordForm (anonymous_request [("email", VStr "nobody@example.org")])
                         start
  = (Ok tt,
     after start site0
       [FindByEmailForOidc (VStr "nobody@example.org");
        Reply (Failure
                 (AssertionError
                    "clientId is required in ThemeService::getThemedTemplate"))]).
Proof.
  pose proof (@forms_without_client_id Examples.deps (list string) toy_platform
                (anonymous_request [("email", VStr "nobody@example.org")])
                undefined (VStr "Reset") start site0 eq_refl eq_refl)
    as (Hget & _ & Hpost).
  split; [exact Hget | exact Hpost].
Defined.

Lemma getForgotPasswordForm_default_page_witness :
  exists t,
    ThemeService.world t = Examples.w0 /\
    getForgotPasswordForm (request_of []) undefined start
    = (Ok tt,
       after (with_theme start t) site0
         [Reply (Html "<html>[Forgot Password|<form>[Forgot Password|]]")]).
Proof.
  exact (@getForgotPasswordForm_default_page Examples.deps (list string)
           toy_platform (request_of []) undefined start Examples.c1
           "<html>" "<form>" "<form>[Forgot Password|]"
           "<html>[Forgot Password|<form>[Forgot Password|]]"
           eq_refl eq_refl (or_introl eq_refl)
           eq_refl eq_refl eq_refl eq_refl).
Defined.


Lemma reset_password_valid_token_witness :
  postResetPasswordForm (VStr "Reset")
    (anonymous_request [("password", VStr "new")]) start
  = reply_themed (anonymous_request [("password", VStr "new")])
      "reset-password-success" [("title", VStr "Reset")]
      (after start site0
         [FindByPasswordToken (VStr "tok"); EncryptPassword (VStr "new");
          Update (VStr "u2")
            [("password", VStr "#new");
             ("profile",
              VObj false
                [("name", VStr "Bob");
                 ("picture",
                  VStr "https://cdn.example.org/pictures/ab/bob.png");
                 ("email_verified", VPrim (PBool true))])];
          DestroyPasswordToken (VStr "tok")]).
Proof.
  exact (proj2 (proj2 (proj2
           (@reset_password_valid_token Examples.deps (list string)
              toy_platform (VStr "Reset")
              (anonymous_request [("password", VStr "new")]) start
              bob site0 (VStr "#new") site0 eq_refl eq_refl)))
           site0 site0 eq_refl eq_refl).
Defined.

Lemma updateProfile_throws_first_witness :
  updateProfile (request_of [("name", VStr "Bobby")]) bob start
  = (Err (TypeError "Cannot read property 'hapi' of undefined"), start) /\
  updateProfile (request_of [("picture", file_part "image/png")]) bob start
  = (Err (ReferenceError "uuid"), start).
Proof.
  split.
  - exact (proj1 (@updateProfile_throws_first (list string) toy_platform
                    (request_of [("name", VStr "Bobby")]) bob start eq_refl)
                 eq_refl).
  - exact (proj2 (@updateProfile_throws_first (list string) toy_platform
                    (request_of [("picture", file_part "image/png")]) bob start
                    eq_refl)
                 _ _ "image/png" eq_refl eq_refl eq_refl (or_intror eq_refl)).
Defined.

Lemma updateProfile_other_type_witness :
  updateProfile (request_of [("name", VStr "Bobby");
                             ("address.city", VStr "Oslo");
                             ("picture", file_part "application/pdf")])
                bob start
  = (Ok tt,
     after start site0
       [Update (VStr "u2")
          [("profile",
            VObj false
              [("name", VStr "Bobby");
               ("picture",
                VStr "https://cdn.example.org/pictures/ab/bob.png");
               ("address", VObj false [("city", VStr "Oslo")])])];
        DeleteImage (VStr "pictures/ab/bob.png");
        ReplyRedirect (VStr "/profile")]).
Proof.
  exact (proj1 (proj2 (proj2
           (@updateProfile_other_type (list string) toy_platform
              (request_of [("name", VStr "Bobby");
                           ("address.city", VStr "Oslo");
                           ("picture", file_part "application/pdf")])
              bob start _ _ (VStr "application/pdf")
              eq_refl eq_refl eq_refl eq_refl eq_refl eq_refl eq_refl)))
           "https://cdn.example.org/pictures/ab/bob.png" site0 site0
           eq_refl ltac:(discriminate) eq_refl eq_refl).
Defined.

(** A field that rewrites the content type of the picture, as lodash
    reads its bracketed name: the picture is no longer taken for a PNG,
    and the user is updated. *)
Example updateProfile_rewritten_content_type :
  let request :=
    request_of [("picture", file_part "image/png");
                ("picture[hapi].headers.content-type", VStr "text/plain")] in
  fst (updateProfile request bob start) = Ok tt /\
  calls (snd (updateProfile request bob start))
  = [Update (VStr "u2")
       [("profile",
         VObj false
           [("name", VStr "Bob");
            ("picture", VStr "https://cdn.example.org/pictures/ab/bob.png")])];
     DeleteImage (VStr "pictures/ab/bob.png");
     ReplyRedirect (VStr "/profile")].
Proof. split; reflexivity. Qed.

End FurtherOnHandlers.
